(** * RealHotGirlScript: the semantic analyzer and its scope chain

    A shallow embedding of [src/semantics/context.js] and
    [src/semantics/analyzer.js].

    - Syntax-tree nodes are JavaScript objects that the analyzer mutates in
      place ([this.type = ...]).  Here a node carries its [type] property
      as an optional field, [None] for [undefined], and the analysis
      returns the node as it stands after the pass.
    - A thrown [Error] is a [Throw] result; the first one ends the pass.
    - Scopes are mutable objects linked to their parent.  The analysis
      takes the context it is called with and returns it as it stands
      afterwards.
    - Type descriptors are objects too.  The primitive ones are singletons;
      each [new ArrayType(...)] and the like gets an identity of its own,
      drawn from a counter that the analysis threads along.
    - [src/semantics/check.js], [src/semantics/builtins.js] and the node
      classes are not among the sources.  The rules of [check] are
      modelled from the spec, each marked as such; what the spec leaves
      open is a parameter ([host], [builtins]). *)

From Stdlib Require Import ZArith Ascii String.
From stdpp Require Import base option list strings gmap fin_maps.

Open Scope string_scope.
Set Warnings "-register-all".

(** ** Type descriptors *)

(** The identity of a descriptor object.  [IntType], [LongType],
    [StringType], [BooleanType] and [NoneType] are module-level singletons;
    every [new ArrayType(...)], [new SetType(...)], ... is an object of its
    own.  Objects built by the parser and objects built by the analyzer can
    never be the same object. *)
Inductive loc :=
| Parsed (n : nat)
| Fresh (n : nat).

(** What a [type] property may hold: [None] is JavaScript's [undefined]. *)
Inductive type :=
| IntType
| LongType
| StringType
| BooleanType
| NoneType
| ArrayType (l : loc) (memberType : option type)
| SetType (l : loc) (memberType : option type)
| DictType (l : loc) (keyType valueType : option type)
| TupleType (l : loc) (memberTypes : list (option type))
| IdType (l : loc) (name : string)
| TypeName (s : string).
(* [TypeName s] is a bare string sitting in a type field: the parser leaves
   the void marker as the string "leftOnRead". *)

Abbreviation tyfield := (option type).

Definition loc_eqb (a b : loc) : bool :=
  match a, b with
  | Parsed n, Parsed m => Nat.eqb n m
  | Fresh n, Fresh m => Nat.eqb n m
  | _, _ => false
  end.

(** JavaScript's [===] (and the SameValueZero test of [Set.prototype.add])
    on the values of a [type] property: singletons and strings by value,
    every other descriptor by object identity. *)
Definition same_object (a b : tyfield) : bool :=
  match a, b with
  | None, None => true
  | Some x, Some y =>
      match x, y with
      | IntType, IntType => true
      | LongType, LongType => true
      | StringType, StringType => true
      | BooleanType, BooleanType => true
      | NoneType, NoneType => true
      | ArrayType l _, ArrayType l' _ => loc_eqb l l'
      | SetType l _, SetType l' _ => loc_eqb l l'
      | DictType l _ _, DictType l' _ _ => loc_eqb l l'
      | TupleType l _, TupleType l' _ => loc_eqb l l'
      | IdType l _, IdType l' _ => loc_eqb l l'
      | TypeName s, TypeName s' => String.eqb s s'
      | _, _ => false
      end
  | _, _ => false
  end.

(** Modelled from the spec: equality of descriptors, which lives in the
    type catalogue outside [src/] -- "two descriptors are equal iff same
    variant and structurally equal component types".  Object identity is
    ignored. *)
Fixpoint type_equal (a b : type) {struct a} : bool :=
  match a, b with
  | IntType, IntType => true
  | LongType, LongType => true
  | StringType, StringType => true
  | BooleanType, BooleanType => true
  | NoneType, NoneType => true
  | ArrayType _ m, ArrayType _ m' =>
      match m, m' with
      | None, None => true
      | Some x, Some y => type_equal x y
      | _, _ => false
      end
  | SetType _ m, SetType _ m' =>
      match m, m' with
      | None, None => true
      | Some x, Some y => type_equal x y
      | _, _ => false
      end
  | DictType _ k v, DictType _ k' v' =>
      match k, k' with
      | None, None => true
      | Some x, Some y => type_equal x y
      | _, _ => false
      end
      &&
      match v, v' with
      | None, None => true
      | Some x, Some y => type_equal x y
      | _, _ => false
      end
  | TupleType _ ms, TupleType _ ms' =>
      (fix all2 (l : list tyfield) (l' : list tyfield) {struct l} : bool :=
         match l, l' with
         | [], [] => true
         | x :: r, y :: r' =>
             match x, y with
             | None, None => true
             | Some x', Some y' => type_equal x' y'
             | _, _ => false
             end && all2 r r'
         | _, _ => false
         end) ms ms'
  | IdType _ n, IdType _ n' => String.eqb n n'
  | TypeName s, TypeName s' => String.eqb s s'
  | _, _ => false
  end.

Definition field_equal (x y : tyfield) : bool :=
  match x, y with
  | None, None => true
  | Some x', Some y' => type_equal x' y'
  | _, _ => false
  end.

(** ** Declarations, errors and results *)

(** A key of a scope table.  Most keys are identifier strings; a key read
    from the [id] property of a node that has none is [undefined], which a
    JavaScript [Map] accepts as a key like any other value. *)
Abbreviation key := (option string).

(** What a scope table binds a name to: the declaring object, with the
    properties the analyzer reads from it later. *)
Inductive entity :=
| VariableEntity (constant : bool) (type : tyfield) (id : key)
| ParameterEntity (type : tyfield) (id : key)
| FunctionEntity (async : bool) (type : tyfield) (id : key)
                 (params : list (tyfield * key))
| IndexDeclaration (type : tyfield) (id : key)
| ClassEntity (id : key) (params : list (tyfield * key))
| BuiltinType (t : type).

(** The [type] property of a declaring object. *)
Definition entity_type (e : entity) : tyfield :=
  match e with
  | VariableEntity _ t _ => t
  | ParameterEntity t _ => t
  | FunctionEntity _ t _ _ => t
  | IndexDeclaration t _ => t
  | ClassEntity _ _ => None
  | BuiltinType _ => None
  end.

(** Every [throw] site of the two files, plus the failures raised inside
    the [check] module and by the JavaScript runtime itself. *)
Inductive error :=
| AlreadyDeclared          (* "Identifier already declared in this scope" *)
| ClassAlreadyDeclared     (* "Class identifier already declared in this scope" *)
| NotDeclared (id : key)   (* "Identifier ${id} has not been declared" *)
| ArityError               (* "Number of ids does not equal number of exps" *)
| BreakOutsideLoop         (* "Break outside of loop" *)
| ConcatError              (* "Cannot concatenate unless string or integer" *)
| VoidReturn               (* "Void functions cannot have return statements" *)
| NotAnIntType             (* "Not an IntType" *)
| CheckError (rule : string)           (* thrown by check.<rule> *)
| RuntimeTypeError (what : string).    (* a property of undefined, a call of a non-function *)

Inductive result (A : Type) :=
| Ok (a : A)
| Throw (e : error).
Arguments Ok {A} a.
Arguments Throw {A} e.

#[global] Instance result_ret : MRet result := fun A a => Ok a.
#[global] Instance result_bind : MBind result := fun A B k r =>
  match r with
  | Ok a => k a
  | Throw e => Throw e
  end.

Definition succeeds {A} (r : result A) : Prop := exists a, r = Ok a.
Definition fails {A} (r : result A) : Prop := exists e, r = Throw e.

(** [doCheck]: a failed condition throws. *)
Definition doCheck (rule : string) (b : bool) : result unit :=
  if b then Ok tt else Throw (CheckError rule).

(** ** Scopes: [src/semantics/context.js] *)

(** A JavaScript [Map].  Its entries are what [has], [get] and [set] see.
    Like any object it also takes own properties ([m[name] = v]), which
    the three methods do not see. *)
Record jsmap := JsMap {
  entries : gmap key entity;
  properties : list (string * entity)
}.

Definition new_Map : jsmap := JsMap ∅ [].
Definition has (k : key) (m : jsmap) : bool := bool_decide (is_Some (entries m !! k)).
Definition get (k : key) (m : jsmap) : option entity := entries m !! k.
Definition set (k : key) (v : entity) (m : jsmap) : jsmap :=
  JsMap (<[k := v]> (entries m)) (properties m).
Definition set_property (name : string) (v : entity) (m : jsmap) : jsmap :=
  JsMap (entries m) ((name, v) :: properties m).

(** [class Context].  The parent link is a reference in the source; a scope
    is only ever written to while it is the one being analyzed, so a child
    holds its ancestors as they stand. *)
Inductive context := Context {
  parent : option context;
  currentFunction : option entity;
  inLoop : bool;
  variableDeclarations : jsmap;
  classDeclarations : jsmap
}.

(** [new Context({ parent, currentFunction, inLoop })] *)
Definition new_Context (parent : option context) (currentFunction : option entity)
    (inLoop : bool) : context :=
  Context parent currentFunction inLoop new_Map new_Map.

Definition createChildContextForFunctionBody (this : context)
    (currentFunction : option entity) : context :=
  new_Context (Some this) currentFunction false.

Definition createChildContextForLoop (this : context) : context :=
  new_Context (Some this) (currentFunction this) true.

Definition createChildContextForBlock (this : context) : context :=
  new_Context (Some this) (currentFunction this) (inLoop this).

Definition addVar (this : context) (id : key) (e : entity) : result context :=
  if has id (variableDeclarations this) then Throw AlreadyDeclared
  else Ok (Context (parent this) (currentFunction this) (inLoop this)
             (set id e (variableDeclarations this)) (classDeclarations this)).

Definition addClass (this : context) (id : key) (e : entity) : result context :=
  if has id (classDeclarations this) then Throw ClassAlreadyDeclared
  else Ok (Context (parent this) (currentFunction this) (inLoop this)
             (variableDeclarations this) (set id e (classDeclarations this))).

(** [for (let context = this; context !== null; context = context.parent)
      if (context.variableDeclarations.has(id))
        return context.variableDeclarations.get(id)]: an entry that [has]
    sees is the one [get] returns. *)
Fixpoint lookupVar (this : context) (id : key) : result entity :=
  match this with
  | Context p _ _ vars _ =>
      match get id vars with
      | Some e => Ok e
      | None =>
          match p with
          | Some up => lookupVar up id
          | None => Throw (NotDeclared id)
          end
      end
  end.

Fixpoint lookupClass (this : context) (id : key) : result entity :=
  match this with
  | Context p _ _ _ classes =>
      match get id classes with
      | Some e => Ok e
      | None =>
          match p with
          | Some up => lookupClass up id
          | None => Throw (NotDeclared id)
          end
      end
  end.

(** [Context.INITIAL].  [src/semantics/builtins.js] is not among the
    sources, so the list of standard functions and the [name] property of
    the five primitive type objects are taken as given. *)
Record builtins := Builtins {
  standardFunctions : list (string * entity);   (* each f with its f.id *)
  name : type -> key                            (* type.name *)
}.

Definition INITIAL (b : builtins) : context :=
  let root := new_Context None None false in
  (* standardFunctions.forEach(f => { INITIAL.variableDeclarations[f.id] = f }) *)
  let vars :=
    fold_left (fun m f => set_property (fst f) (snd f) m)
              (standardFunctions b) (variableDeclarations root) in
  (* [IntType, LongType, StringType, BoolType, NoneType].forEach(type =>
       INITIAL.classDeclarations.set(type.name, type)) *)
  let classes :=
    fold_left (fun m t => set (name b t) (BuiltinType t) m)
              [IntType; LongType; StringType; BooleanType; NoneType]
              (classDeclarations root) in
  Context (parent root) (currentFunction root) (inLoop root) vars classes.

(** ** Syntax-tree nodes *)

(** One constructor per node class of [analyzer.js].  The classes
    themselves ([src/ast/*]) are not among the sources; the fields are the
    properties the analyzer reads and writes.  [type], [ref], [callee] and
    [resolved] are left [None] by the parser wherever the analyzer is the
    one that assigns them. *)
Inductive node :=
| StringLiteral (value : string) (type : tyfield)
| NoneLiteral (type : tyfield)
| BooleanLiteral (value : bool) (type : tyfield)
| NumericLiteral (value : Z) (type : tyfield)
| Argument (id : key) (expression : node)
| ArrayExpression (expression : list node) (type : tyfield)
| AssignmentStatement (target source : list node)
| BinaryExpression (op : string) (left right : node) (type : tyfield)
| Block (statements : list node)
| BreakStatement
| Call (id : key) (args : list node) (wait : bool)
       (callee : option entity) (type : tyfield)
| Case (expression body : node)
| ClassDeclaration (id : key) (params : list node) (body : node)
| ClassicForLoop (type : tyfield) (initId : key)
                 (initexpression testExpression : node)
                 (updateid : key) (body : node)
| ContinueStatement
| DefaultCase (body : option node)
| DictExpression (expression : list node) (type : tyfield)
| FunctionDeclaration (async : bool) (type : tyfield) (id : key)
                      (params : list node) (body : node)
| IdentifierDeclaration (id : key) (type : tyfield)
| IdentifierExpression (id : key) (ref : option entity) (type : tyfield)
| IfStatement (tests consequents : list node) (alternate : option node)
| KeyValueExpression (key value : node)
| PrintStatement (expression : node)
| MemberExpression (varexp member : key) (resolved : option (entity * entity))
| ParameterNode (type : tyfield) (id : key) (expression : option node)
| Program (statements : list node)
| ReturnStatement (expression : option node) (type : tyfield)
| SetExpression (expression : list node) (type : tyfield)
| CallStatement (call : node)
| SpreadForLoop (min max body : node)
| SwitchStatement (expression : node) (cases : list node)
                  (alternate : option node)
| SubscriptedExpression (varexp subscript : node) (resolved : option entity)
| TupleExpression (expressions : list node) (type : tyfield)
| UnaryExpression (op : string) (operand : node) (type : tyfield)
| VariableDeclaration (constant : bool) (type : tyfield)
                      (ids expressions : list node)
| WhileStatement (expression body : node).

(** [n.type] *)
Definition type_of (n : node) : tyfield :=
  match n with
  | StringLiteral _ t | NoneLiteral t | BooleanLiteral _ t
  | NumericLiteral _ t | ArrayExpression _ t | BinaryExpression _ _ _ t
  | Call _ _ _ _ t | ClassicForLoop t _ _ _ _ _ | DictExpression _ t
  | FunctionDeclaration _ t _ _ _ | IdentifierDeclaration _ t
  | IdentifierExpression _ _ t | ParameterNode t _ _ | ReturnStatement _ t
  | SetExpression _ t | TupleExpression _ t | UnaryExpression _ _ t
  | VariableDeclaration _ t _ _ => t
  | _ => None
  end.

(** [n.id] *)
Definition id_of (n : node) : key :=
  match n with
  | Argument i _ | Call i _ _ _ _ | ClassDeclaration i _ _
  | FunctionDeclaration _ _ i _ _ | IdentifierDeclaration i _
  | IdentifierExpression i _ _ | ParameterNode _ i _ => i
  | _ => None
  end.

(** [n.body], when it is a node. *)
Definition body_of (n : node) : option node :=
  match n with
  | Case _ b | ClassDeclaration _ _ b | ClassicForLoop _ _ _ _ _ b
  | FunctionDeclaration _ _ _ _ b | SpreadForLoop _ _ b
  | WhileStatement _ b => Some b
  | DefaultCase b => b
  | _ => None
  end.

(** The node classes that are expressions: the ones the analyzer gives a
    [type] to, or is meant to. *)
Definition is_expression (n : node) : bool :=
  match n with
  | StringLiteral _ _ | NoneLiteral _ | BooleanLiteral _ _
  | NumericLiteral _ _ | ArrayExpression _ _ | BinaryExpression _ _ _ _
  | Call _ _ _ _ _ | DictExpression _ _ | IdentifierDeclaration _ _
  | IdentifierExpression _ _ _ | MemberExpression _ _ _ | SetExpression _ _
  | SubscriptedExpression _ _ _ | TupleExpression _ _
  | UnaryExpression _ _ _ => true
  | _ => false
  end.

(** What a function or class object shows of a parameter node. *)
Definition param_info (p : node) : tyfield * key :=
  (type_of p, id_of p).


(** [n.ref] *)
Definition ref_of (n : node) : option entity :=
  match n with
  | IdentifierExpression _ r _ => r
  | _ => None
  end.

(** ** The [check] module

    [src/semantics/check.js] is not among the sources.  Each rule the
    analyzer calls is modelled from what the spec says the rule enforces;
    a rule that fails throws. *)
Module check.

(** Modelled from the spec: "must type to Integer" -- the operand's
    [type] is the Integer descriptor. *)
Definition isInteger (t : tyfield) : result unit :=
  doCheck "isInteger" (same_object t (Some IntType)).

(** Modelled from the spec: "must type to Boolean". *)
Definition isBoolean (t : tyfield) : result unit :=
  doCheck "isBoolean" (same_object t (Some BooleanType)).

(** Modelled from the spec: the String operand of [+]. *)
Definition isString (t : tyfield) : result unit :=
  doCheck "isString" (same_object t (Some StringType)).

(** Modelled from the spec: the Long operand of unary [-]/[+]. *)
Definition isLong (t : tyfield) : result unit :=
  doCheck "isLong" (same_object t (Some LongType)).

(** Modelled from the spec: "that type must be Integer or String". *)
Definition isIntegerOrString (t : tyfield) : result unit :=
  doCheck "isIntegerOrString"
    (same_object t (Some IntType) || same_object t (Some StringType)).

(** Modelled from the spec: "must be Integer or Long". *)
Definition isIntegerOrLong (t : tyfield) : result unit :=
  doCheck "isIntegerOrLong"
    (same_object t (Some IntType) || same_object t (Some LongType)).

(** Modelled from the spec: "operands of identical type", with the
    spec's equality of descriptors. *)
Definition sameType (l r : tyfield) : result unit :=
  doCheck "sameType" (field_equal l r).

(** Modelled from the spec: "Assignability: identical type, or a
    Nullable<T> accepting a bare T or the null sentinel".  The analyzer
    builds no Nullable descriptor, so only the first case arises. *)
Definition isAssignableTo (t target : tyfield) : result unit :=
  doCheck "isAssignableTo" (field_equal t target).

(** Modelled from the spec: "each target must not be a constant
    declaration" -- the declaration the target was resolved to. *)
Definition isNotConstant (t : node) : result unit :=
  doCheck "isNotConstant"
    match ref_of t with
    | Some (VariableEntity true _ _) => false
    | _ => true
    end.

(** Modelled from the spec: "legal only when the enclosing scope
    chain's nearest inside_loop flag is true". *)
Definition inLoop (context : context) : result unit :=
  doCheck "inLoop" (inLoop context).

(** Modelled from the spec: "legal only inside a function scope". *)
Definition inFunction (context : context) : result unit :=
  doCheck "inFunction"
    match currentFunction context with Some _ => true | None => false end.

(** Modelled from the spec: "callee resolved as a variable that must
    denote a function or class". *)
Definition isFunctionOrClass (e : entity) : result unit :=
  doCheck "isFunctionOrClass"
    match e with
    | FunctionEntity _ _ _ _ | ClassEntity _ _ => true
    | _ => false
    end.

(** Modelled from the spec: "argument count and types checked against
    the callee's declared parameters". *)
Definition legalArguments (args : list node) (params : list (tyfield * key))
    : result unit :=
  let arg_type a :=
    match a with Argument _ e => type_of e | _ => type_of a end in
  doCheck "legalArguments"
    (Nat.eqb (length args) (length params)
     && forallb (fun ap => field_equal (arg_type (fst ap)) (fst (snd ap)))
                (zip args params)).

(** Modelled from the spec: "a call to a function declared asynchronous
    be marked as awaited by the caller, and vice versa". *)
Definition asyncAwait (async wait : bool) : result unit :=
  doCheck "asyncAwait" (Bool.eqb async wait).

(** Modelled from the spec: "key/value types inferred from the first
    pair" -- the first element is a key/value pair. *)
Definition isKeyValueExpression (n : node) : result unit :=
  doCheck "isKeyValueExpression"
    match n with KeyValueExpression _ _ => true | _ => false end.

(** Modelled from the spec: "target count must equal source-expression
    count", applied to a declaration's ids and initializers. *)
Definition sameNumberOfInitializersAsVariables (exps ids : list node)
    : result unit :=
  doCheck "sameNumberOfInitializersAsVariables"
    (Nat.eqb (length exps) (length ids)).

End check.

(** What the sources and the spec leave open. *)
Record host := Host {
  (** [check.hasMemberExpression], of which the spec says nothing. *)
  hasMemberExpression : key -> bool;
  (** [check.isNotSubscriptable] passes: which declarations count as "a
      subscriptable collection type" is not enumerated by the spec. *)
  subscriptable : entity -> bool;
  (** [entity.analyze(context)] on a declaration node fetched from a scope
      table (member access and subscript do this).  The node has been
      analyzed before and was mutated then, which this development does
      not track; the call can only write to the tables of [context] itself
      and allocate descriptors. *)
  reanalyze : entity -> context -> nat -> result (jsmap * jsmap * nat)
}.

(** ** Operators *)

(** Does the string contain one of the characters? ([/[...]/.test]) *)
Fixpoint contains_any (cs : list Ascii.ascii) (s : string) : bool :=
  match s with
  | EmptyString => false
  | String a r => existsb (Ascii.eqb a) cs || contains_any cs r
  end.

(** Does the string contain the substring? *)
Fixpoint contains (sub s : string) : bool :=
  String.prefix sub s ||
  match s with
  | EmptyString => false
  | String _ r => contains sub r
  end.

Inductive op_class := Arithmetic | Logical | Relational | Plus | Equality.

(** The cascade of regular-expression tests in
    [BinaryExpression.prototype.analyze], in its order. *)
Definition classify (op : string) : op_class :=
  if contains_any ["^"; "-"; "*"; "%"; "/"]%char op then Arithmetic
  else if contains "&&" op || contains "||" op then Logical
  else if contains "<" op || contains ">" op then Relational
  else if contains "+" op then Plus
  else Equality.

(** [Set.prototype.add] on a set of [type] values, kept in insertion
    order. *)
Definition Set_add (t : tyfield) (s : list tyfield) : list tyfield :=
  if existsb (same_object t) s then s else s ++ [t].

(** [list.forEach(check)] *)
Fixpoint for_each {A} (f : A -> result unit) (l : list A) : result unit :=
  match l with
  | [] => Ok tt
  | x :: r => _ ← f x; for_each f r
  end.

(** [f.params] and [f.async] of a callee. *)
Definition entity_params (e : entity) : list (tyfield * key) :=
  match e with
  | FunctionEntity _ _ _ ps | ClassEntity _ ps => ps
  | _ => []
  end.

Definition entity_async (e : entity) : bool :=
  match e with
  | FunctionEntity a _ _ _ => a
  | _ => false
  end.

Definition leftOnRead : tyfield := Some (TypeName "leftOnRead").

(** [this.variables = this.ids.map(id => new Variable(this.constant, this.type, id));
     this.variables.forEach(variable => context.addVar(variable.id.id, variable))] *)
Fixpoint addVars (constant : bool) (t : tyfield) (ids : list node) (c : context)
    : result context :=
  match ids with
  | [] => Ok c
  | id :: r =>
      c ← addVar c (id_of id) (VariableEntity constant t (id_of id));
      addVars constant t r c
  end.

(** ** The analyzer: [src/semantics/analyzer.js] *)

Section Analyzer.

Variable H : host.

Abbreviation state := (context * nat)%type.

(** [entity.analyze(context)]: a [Variable] object and the primitive type
    objects have no [analyze] method. *)
Definition entity_analyze (e : entity) (ctx : context) (h : nat)
    : result state :=
  match e with
  | VariableEntity _ _ _ | BuiltinType _ =>
      Throw (RuntimeTypeError "analyze is not a function")
  | _ =>
      '(vars, classes, h) ← reanalyze H e ctx h;
      Ok (Context (parent ctx) (currentFunction ctx) (inLoop ctx)
            vars classes, h)
  end.

(** The rules are written over [visit], the call [child.analyze(context)]
    on a node below the one at hand; [analyze] ties the knot.  [h] counts
    the descriptor objects allocated so far; a rule returns the node after
    the call, the context after the call and the new count. *)
Variable visit : node -> context -> nat -> result (node * context * nat).

(** [list.forEach(m => m.analyze(context))] *)
Definition each : list node -> context -> nat -> result (list node * context * nat) :=
  fix each (l : list node) (c : context) (h : nat) {struct l} :=
    match l with
    | [] => Ok ([], c, h)
    | m :: r =>
        '(m', c, h) ← visit m c h;
        '(r', c, h) ← each r c h;
        Ok (m' :: r', c, h)
    end.

(** The body of [AssignmentStatement.prototype.analyze]. *)
Definition assign (target source : list node) (c : context) (h : nat)
    : result (list node * list node * context * nat) :=
  '(source', c, h) ← each source c h;
  '(target', c, h) ← each target c h;
  if negb (Nat.eqb (length target') (length source')) then Throw ArityError
  else
    _ ← for_each (fun ts : node * node =>
                    _ ← check.isAssignableTo (type_of (snd ts)) (type_of (fst ts));
                    check.isNotConstant (fst ts))
                 (zip target' source');
    Ok (target', source', c, h).

(** [this.tests.forEach(test => { test.analyze(context); check.isBoolean(test) })] *)
Definition each_test : list node -> context -> nat -> result (list node * context * nat) :=
  fix each_test (l : list node) (c : context) (h : nat) {struct l} :=
    match l with
    | [] => Ok ([], c, h)
    | t :: r =>
        '(t', c, h) ← visit t c h;
        _ ← check.isBoolean (type_of t');
        '(r', c, h) ← each_test r c h;
        Ok (t' :: r', c, h)
    end.

(** [this.consequents.forEach(block =>
      block.analyze(context.createChildContextForBlock()))] *)
Definition each_block (c : context) : list node -> nat -> result (list node * nat) :=
  fix each_block (l : list node) (h : nat) {struct l} :=
    match l with
    | [] => Ok ([], h)
    | b :: r =>
        '(b', _, h) ← visit b (createChildContextForBlock c) h;
        '(r', h) ← each_block r h;
        Ok (b' :: r', h)
    end.

(** [this.cases.forEach(c => { const currCase = new Case(c.expression, c.body);
      currCase.analyze(context) })].  The new [Case] shares the expression
    and the body with [c], so [c] is what the analysis annotates.  A [c]
    without an [expression] or a [body] that is a node makes the call
    [undefined.analyze(...)]. *)
Definition each_case : list node -> context -> nat -> result (list node * context * nat) :=
  fix each_case (l : list node) (c : context) (h : nat) {struct l} :=
    match l with
    | [] => Ok ([], c, h)
    | k :: r =>
        '(k', c, h) ←
          match k with
          | Case x b =>
              '(x', c, h) ← visit x c h;
              _ ← check.isBoolean (type_of x');
              '(b', c, h) ← visit b c h;
              Ok (Case x' b', c, h)
          | WhileStatement x b =>
              '(x', c, h) ← visit x c h;
              _ ← check.isBoolean (type_of x');
              '(b', c, h) ← visit b c h;
              Ok (WhileStatement x' b', c, h)
          | Argument _ x | PrintStatement x | SwitchStatement x _ _
          | ParameterNode _ _ (Some x) | ReturnStatement (Some x) _ =>
              (* an expression, but no body *)
              '(x', c, h) ← visit x c h;
              _ ← check.isBoolean (type_of x');
              Throw (RuntimeTypeError "body is undefined")
          | _ => Throw (RuntimeTypeError "expression is undefined")
          end;
        '(r', c, h) ← each_case r c h;
        Ok (k' :: r', c, h)
    end.

(** [this.expressions.forEach(mem => { mem.analyze(context);
      memTypes.add(mem.type) })] *)
Definition each_member
    : list node -> list tyfield -> context -> nat
      -> result (list node * list tyfield * context * nat) :=
  fix each_member (l : list node) (memTypes : list tyfield)
      (c : context) (h : nat) {struct l} :=
    match l with
    | [] => Ok ([], memTypes, c, h)
    | mem :: r =>
        '(mem', c, h) ← visit mem c h;
        '(r', memTypes, c, h) ← each_member r (Set_add (type_of mem') memTypes) c h;
        Ok (mem' :: r', memTypes, c, h)
    end.

(** One rule per node class. *)
Definition rules (n : node) (ctx : context) (h : nat)
    : result (node * context * nat) :=
  match n with
  | StringLiteral v _ => Ok (StringLiteral v (Some StringType), ctx, h)
  | NoneLiteral _ => Ok (NoneLiteral (Some NoneType), ctx, h)
  | BooleanLiteral v _ => Ok (BooleanLiteral v (Some BooleanType), ctx, h)
  | NumericLiteral v _ => Ok (NumericLiteral v (Some IntType), ctx, h)
  | Argument i e =>
      '(e', c, h) ← visit e ctx h;
      Ok (Argument i e', c, h)
  | ArrayExpression es _ =>
      '(es', c, h) ← each es ctx h;
      match es' with
      | first :: rest =>
          _ ← for_each (fun e => check.isAssignableTo (type_of e) (type_of first)) rest;
          Ok (ArrayExpression es' (Some (ArrayType (Fresh h) (type_of first))), c, S h)
      | [] =>
          Ok (ArrayExpression es' (Some (ArrayType (Fresh h) (Some NoneType))), c, S h)
      end
  | AssignmentStatement target source =>
      '(target', source', c, h) ← assign target source ctx h;
      Ok (AssignmentStatement target' source', c, h)
  | BinaryExpression op l r _ =>
      '(l', c, h) ← visit l ctx h;
      '(r', c, h) ← visit r c h;
      t ← match classify op with
          | Arithmetic =>
              _ ← check.isInteger (type_of l');
              _ ← check.isInteger (type_of r');
              Ok IntType
          | Logical =>
              _ ← check.isBoolean (type_of l');
              _ ← check.isBoolean (type_of r');
              Ok BooleanType
          | Relational =>
              _ ← check.sameType (type_of l') (type_of r');
              _ ← check.isIntegerOrString (type_of l');
              _ ← check.isIntegerOrString (type_of r');
              Ok BooleanType
          | Plus =>
              match (_ ← check.isInteger (type_of l'); check.isInteger (type_of r')) with
              | Ok _ => Ok IntType
              | Throw _ =>
                  match (_ ← check.isString (type_of l'); check.isString (type_of r')) with
                  | Ok _ => Ok StringType
                  | Throw _ => Throw ConcatError
                  end
              end
          | Equality =>
              _ ← check.sameType (type_of l') (type_of r');
              Ok BooleanType
          end;
      Ok (BinaryExpression op l' r' (Some t), c, h)
  | Block ss =>
      '(ss', c, h) ← each ss ctx h;
      Ok (Block ss', c, h)
  | BreakStatement =>
      _ ← check.inLoop ctx;
      if negb (inLoop ctx) then Throw BreakOutsideLoop
      else Ok (BreakStatement, ctx, h)
  | Call i args w _ _ =>
      f ← lookupVar ctx i;
      _ ← check.isFunctionOrClass f;
      '(args', c, h) ← each args ctx h;
      _ ← check.legalArguments args' (entity_params f);
      _ ← check.asyncAwait (entity_async f) w;
      Ok (Call i args' w (Some f) (entity_type f), c, h)
  | Case e b =>
      '(e', c, h) ← visit e ctx h;
      _ ← check.isBoolean (type_of e');
      '(b', c, h) ← visit b c h;
      Ok (Case e' b', c, h)
  | ClassDeclaration i params b =>
      c ← addClass ctx i (ClassEntity i (map param_info params));
      let bodyContext := createChildContextForFunctionBody c None in
      '(params', _, h) ← each params bodyContext h;
      '(b', c, h) ← visit b c h;
      Ok (ClassDeclaration i params' b', c, h)
  | ClassicForLoop t initId init test updateid b =>
      let bodyContext := createChildContextForLoop ctx in
      '(init', bodyContext, h) ← visit init bodyContext h;
      _ ← check.isAssignableTo (type_of init') t;
      (* this.index = new VariableDeclaration(false, init.type, [initId], [init]) *)
      bodyContext ← addVar bodyContext initId (IndexDeclaration (type_of init') initId);
      '(test', bodyContext, h) ← visit test bodyContext h;
      _ ← check.isBoolean (type_of test');
      variableToIncrement ← lookupVar bodyContext updateid;
      _ ← check.isIntegerOrLong (entity_type variableToIncrement);
      '(b', _, h) ← visit b bodyContext h;
      Ok (ClassicForLoop t initId init' test' updateid b', ctx, h)
  | ContinueStatement =>
      _ ← check.inLoop ctx;
      Ok (ContinueStatement, ctx, h)
  | DefaultCase b =>
      match b with
      | Some b =>
          '(b', c, h) ← visit b ctx h;
          Ok (DefaultCase (Some b'), c, h)
      | None => Throw (RuntimeTypeError "body is undefined")
      end
  | DictExpression es _ =>
      '(es', c, h) ← each es ctx h;
      match es' with
      | first :: rest =>
          _ ← check.isKeyValueExpression first;
          let '(keyType, valueType) :=
            match first with
            | KeyValueExpression k v => (type_of k, type_of v)
            | _ => (None, None)
            end in
          _ ← for_each (fun e =>
                 match e with
                 | KeyValueExpression k v =>
                     _ ← check.isAssignableTo (type_of k) keyType;
                     check.isAssignableTo (type_of v) valueType
                 | _ => Throw (RuntimeTypeError "key is undefined")
                 end) rest;
          Ok (DictExpression es' (Some (DictType (Fresh h) keyType valueType)), c, S h)
      | [] =>
          Ok (DictExpression es' (Some (DictType (Fresh h) (Some NoneType) None)), c, S h)
      end
  | FunctionDeclaration a t i params b =>
      let bodyContext :=
        createChildContextForFunctionBody ctx
          (Some (FunctionEntity a t i (map param_info params))) in
      '(params', bodyContext, h) ← each params bodyContext h;
      (* The function object is shared by the scope table, by the body
         context and by [this]: line 330 rewrites its type before any of
         them is read again. *)
      let t' := if same_object t leftOnRead then Some NoneType else t in
      let this := FunctionEntity a t' i (map param_info params') in
      c ← addVar ctx i this;
      let bodyContext :=
        Context (Some c) (Some this) (inLoop bodyContext)
          (variableDeclarations bodyContext) (classDeclarations bodyContext) in
      '(b', _, h) ← visit b bodyContext h;
      Ok (FunctionDeclaration a t' i params' b', c, h)
  | IdentifierDeclaration i _ =>
      r ← lookupVar ctx i;
      Ok (IdentifierDeclaration i (entity_type r), ctx, h)
  | IdentifierExpression i _ _ =>
      _ ← lookupVar ctx i;        (* the lookup made for the log line *)
      r ← lookupVar ctx i;
      Ok (IdentifierExpression i (Some r) (entity_type r), ctx, h)
  | IfStatement tests consequents alternate =>
      '(tests', c, h) ← each_test tests ctx h;
      '(consequents', h) ← each_block c consequents h;
      match alternate with
      | Some a =>
          '(a', _, h) ← visit a (createChildContextForBlock c) h;
          Ok (IfStatement tests' consequents' (Some a'), c, h)
      | None => Ok (IfStatement tests' consequents' None, c, h)
      end
  | KeyValueExpression k v =>
      '(k', c, h) ← visit k ctx h;
      '(v', c, h) ← visit v c h;
      Ok (KeyValueExpression k' v', c, h)
  | PrintStatement e =>
      (* // this.expression.analyze(context); *)
      Ok (PrintStatement e, ctx, h)
  | MemberExpression v m _ =>
      _ ← doCheck "hasMemberExpression" (hasMemberExpression H v);
      ev ← lookupVar ctx v;
      em ← lookupVar ctx m;
      '(c, h) ← entity_analyze ev ctx h;
      '(c, h) ← entity_analyze em c h;
      Ok (MemberExpression v m (Some (ev, em)), c, h)
  | ParameterNode t i e =>
      '(e', c, h) ←
        match e with
        | Some x => '(x', c, h) ← visit x ctx h; Ok (Some x', c, h)
        | None => Ok (None, ctx, h)
        end;
      c ← addVar c i (ParameterEntity t i);
      Ok (ParameterNode t i e', c, h)
  | Program ss =>
      '(ss', c, h) ← each ss ctx h;
      Ok (Program ss', c, h)
  | ReturnStatement e t =>
      match e with
      | None => Throw (RuntimeTypeError "expression is undefined")
      | Some x =>
          '(x', c, h) ← visit x ctx h;
          if same_object t leftOnRead then Throw VoidReturn
          else
            _ ← check.inFunction c;
            _ ← check.isAssignableTo (type_of x')
                  (f ← currentFunction c; entity_type f);
            Ok (ReturnStatement (Some x') t, c, h)
      end
  | SetExpression es _ =>
      '(es', c, h) ← each es ctx h;
      match es' with
      | first :: rest =>
          _ ← for_each (fun e => check.isAssignableTo (type_of e) (type_of first)) rest;
          Ok (SetExpression es' (Some (SetType (Fresh h) (type_of first))), c, S h)
      | [] =>
          Ok (SetExpression es' (Some (SetType (Fresh h) (Some NoneType))), c, S h)
      end
  | CallStatement call =>
      '(call', c, h) ← visit call ctx h;
      Ok (CallStatement call', c, h)
  | SpreadForLoop lo hi b =>
      '(lo', c, h) ← visit lo ctx h;
      _ ← check.isIntegerOrLong (type_of lo');
      '(hi', c, h) ← visit hi c h;
      _ ← check.isIntegerOrLong (type_of hi');
      '(b', _, h) ← visit b (createChildContextForLoop c) h;
      Ok (SpreadForLoop lo' hi' b', c, h)
  | SwitchStatement e cases alternate =>
      '(e', c, h) ← visit e ctx h;
      '(cases', c, h) ← each_case cases c h;
      (* if (this.alternate) this.alternate = new DefaultCase(this.alternate.body) *)
      Ok (SwitchStatement e' cases'
            (a ← alternate; Some (DefaultCase (body_of a))), c, h)
  | SubscriptedExpression v s _ =>
      ev ← lookupVar ctx (id_of v);
      _ ← doCheck "isNotSubscriptable" (subscriptable H ev);
      _ ← check.isInteger (type_of s);
      '(c, h) ← entity_analyze ev ctx h;
      '(s', c, h) ← visit s c h;
      Ok (SubscriptedExpression v s' (Some ev), c, h)
  | TupleExpression es _ =>
      match es with
      | [] => Ok (TupleExpression es (Some (SetType (Fresh h) (Some NoneType))), ctx, S h)
      | _ =>
          '(es', memTypes, c, h) ← each_member es [] ctx h;
          Ok (TupleExpression es' (Some (TupleType (Fresh h) memTypes)), c, S h)
      end
  | UnaryExpression op e t =>
      '(e', c, h) ← visit e ctx h;
      t' ← (if String.eqb op "BANGENERGY" then
              _ ← check.isBoolean (type_of e');
              Ok (Some BooleanType)
            else if String.eqb op "-" || String.eqb op "+" then
              match check.isInteger (type_of e') with
              | Ok _ => Ok (Some IntType)
              | Throw _ =>
                  match check.isLong (type_of e') with
                  | Ok _ => Ok (Some LongType)
                  | Throw _ => Throw NotAnIntType
                  end
              end
            else Ok t);
      Ok (UnaryExpression op e' t', c, h)
  | VariableDeclaration k t ids exps =>
      _ ← check.sameNumberOfInitializersAsVariables exps ids;
      c ← addVars k t ids ctx;
      (* new AssignmentStatement(this.ids, this.expressions).analyze(context) *)
      '(ids', exps', c, h) ← assign ids exps c h;
      Ok (VariableDeclaration k t ids' exps', c, h)
  | WhileStatement e b =>
      '(e', c, h) ← visit e ctx h;
      _ ← check.isBoolean (type_of e');
      '(b', _, h) ← visit b (createChildContextForLoop c) h;
      Ok (WhileStatement e' b', c, h)
  end.

End Analyzer.

(** [n.analyze(context)] *)
Fixpoint analyze (H : host) (n : node) (ctx : context) (h : nat) {struct n}
    : result (node * context * nat) :=
  rules H (analyze H) n ctx h.

(** [module.exports = function (program) { program.analyze(Context.INITIAL) }] *)
Definition analyzer (H : host) (b : builtins) (program : node)
    : result (node * context * nat) :=
  analyze H program (INITIAL b) 0.

(** The node a successful analysis leaves behind. *)
Definition analyzed {C D} (r : result (node * C * D)) : option node :=
  match r with
  | Ok (n, _, _) => Some n
  | Throw _ => None
  end.

(** ** Vocabulary of the properties *)

(** Modelled from the spec: the error taxonomy of its section 7, which
    the sources do not have (every failure is a plain [Error]). *)
Inductive error_kind := DeclarationError | TypeError | ControlFlowError.

Definition kind_of (e : error) : error_kind :=
  match e with
  | AlreadyDeclared | ClassAlreadyDeclared | NotDeclared _ => DeclarationError
  | BreakOutsideLoop | VoidReturn => ControlFlowError
  | CheckError rule =>
      if String.eqb rule "inLoop" || String.eqb rule "inFunction"
      then ControlFlowError else TypeError
  | _ => TypeError
  end.

Definition has_type (n : node) : bool :=
  match type_of n with Some _ => true | None => false end.

(** Every expression node of the tree carries a type descriptor. *)
Fixpoint every_expression_typed (n : node) : bool :=
  let all :=
    fix all (l : list node) : bool :=
      match l with
      | [] => true
      | x :: r => every_expression_typed x && all r
      end in
  (negb (is_expression n) || has_type n) &&
  match n with
  | StringLiteral _ _ | NoneLiteral _ | BooleanLiteral _ _ | NumericLiteral _ _
  | BreakStatement | ContinueStatement | IdentifierDeclaration _ _
  | IdentifierExpression _ _ _ | MemberExpression _ _ _ => true
  | Argument _ e | PrintStatement e | CallStatement e
  | UnaryExpression _ e _ => every_expression_typed e
  | ArrayExpression l _ | Block l | Call _ l _ _ _ | DictExpression l _
  | Program l | SetExpression l _ | TupleExpression l _ => all l
  | AssignmentStatement l l' | VariableDeclaration _ _ l l' => all l && all l'
  | BinaryExpression _ a b _ | Case a b | KeyValueExpression a b
  | WhileStatement a b | SubscriptedExpression a b _ =>
      every_expression_typed a && every_expression_typed b
  | ClassDeclaration _ l b | FunctionDeclaration _ _ _ l b =>
      all l && every_expression_typed b
  | ClassicForLoop _ _ a b _ c | SpreadForLoop a b c =>
      every_expression_typed a && every_expression_typed b
      && every_expression_typed c
  | DefaultCase o | ParameterNode _ _ o | ReturnStatement o _ =>
      match o with Some x => every_expression_typed x | None => true end
  | IfStatement l l' o =>
      all l && all l'
      && match o with Some x => every_expression_typed x | None => true end
  | SwitchStatement e l o =>
      every_expression_typed e && all l
      && match o with Some x => every_expression_typed x | None => true end
  end.

(** No descriptor object is listed twice. *)
Fixpoint distinct_objects (l : list tyfield) : bool :=
  match l with
  | [] => true
  | t :: r => negb (existsb (same_object t) r) && distinct_objects r
  end.

(** No two listed types are equal, with the spec's equality of
    descriptors. *)
Fixpoint distinct_types (l : list tyfield) : bool :=
  match l with
  | [] => true
  | t :: r => negb (existsb (field_equal t) r) && distinct_types r
  end.

(** The three ways the analyzer opens a scope inside [this]. *)
Definition child_of (this child : context) : Prop :=
  (exists f, child = createChildContextForFunctionBody this f)
  \/ child = createChildContextForLoop this
  \/ child = createChildContextForBlock this.

(** What a context keeps for life: its parent link, its function and its
    loop flag.  Only the two tables are ever written. *)
Definition frame (c : context) : option context * option entity * bool :=
  (parent c, currentFunction c, inLoop c).

Definition keeps_frame
    (visit : node -> context -> nat -> result (node * context * nat))
    (n : node) : Prop :=
  forall c h n' c' h', visit n c h = Ok (n', c', h') -> frame c' = frame c.

Definition case_keeps_frame
    (visit : node -> context -> nat -> result (node * context * nat))
    (k : node) : Prop :=
  match k with
  | Case x b | WhileStatement x b => keeps_frame visit x /\ keeps_frame visit b
  | _ => True
  end.

(** The guard of an analyzed case carries the Boolean type. *)
Definition guard_is_boolean (k : node) : Prop :=
  match k with
  | Case x _ | WhileStatement x _ => type_of x = Some BooleanType
  | _ => False
  end.

(** The node never comes out of an analysis with the type [t]. *)
Definition never_types_to (H : host) (x : node) (t : type) : Prop :=
  forall c h x' c' h', analyze H x c h = Ok (x', c', h') -> type_of x' <> Some t.

(** The values of a [type] property that [===] compares by value: the
    five singleton descriptors, a string and [undefined]. *)
Definition by_value (t : tyfield) : bool :=
  match t with
  | None => true
  | Some (IntType | LongType | StringType | BooleanType | NoneType | TypeName _) => true
  | Some _ => false
  end.

(** ** Sample objects *)

Definition a_host : host :=
  Host (fun _ => true) (fun _ => true)
       (fun _ _ _ => Throw (RuntimeTypeError "analyze is not a function")).

Definition some_builtins : builtins :=
  Builtins
    [("print", FunctionEntity false (Some NoneType) (Some "print")
                 [(Some StringType, Some "s")])]
    (fun t =>
       match t with
       | IntType => Some "digitz"
       | LongType => Some "longz"
       | StringType => Some "wordz"
       | BooleanType => Some "boolz"
       | _ => Some "leftOnRead"
       end).

Definition root : context := new_Context None None false.

(** A host that analyzes parameters again, the way
    [Parameter.prototype.analyze] does for a parameter without a default
    value: [context.addVar(this.id, this)].  It analyzes no other
    declaration again, and takes arrays, dicts and tuples for the
    subscriptable collections. *)
Definition parameter_host : host :=
  Host (fun _ => true)
       (fun e =>
          match entity_type e with
          | Some (ArrayType _ _ | DictType _ _ _ | TupleType _ _) => true
          | _ => false
          end)
       (fun e c h =>
          match e with
          | ParameterEntity _ i =>
              c' ← addVar c i e;
              Ok (variableDeclarations c', classDeclarations c', h)
          | _ => Throw (RuntimeTypeError "analyze is not a function")
          end).

(** A scope that declares the parameter [a], an array of integers. *)
Definition scope_with_a : context :=
  Context None None false
    (set (Some "a")
         (ParameterEntity (Some (ArrayType (Parsed 0) (Some IntType))) (Some "a"))
         new_Map)
    new_Map.

(** The scope of a function with the parameters [a] and [n], and a block
    inside it that has declared [x]. *)
Definition scope_with_a_n : context :=
  Context None None false
    (set (Some "n") (ParameterEntity (Some IntType) (Some "n"))
         (variableDeclarations scope_with_a))
    new_Map.

Definition block_with_x : context :=
  Context (Some scope_with_a_n) None false
    (set (Some "x") (VariableEntity false (Some IntType) (Some "x")) new_Map)
    new_Map.

(** ** Vocabulary of the further properties *)

(** Does some scope of the chain, from [this] outwards, hold the key? *)
Fixpoint declared_var (this : context) (id : key) : bool :=
  match this with
  | Context p _ _ vars _ =>
      has id vars || match p with Some up => declared_var up id | None => false end
  end.

Fixpoint declared_class (this : context) (id : key) : bool :=
  match this with
  | Context p _ _ _ classes =>
      has id classes || match p with Some up => declared_class up id | None => false end
  end.

(** Every entry of the two tables of [c] is still there, unchanged, in
    [c']. *)
Definition extends (c c' : context) : Prop :=
  (forall k v, get k (variableDeclarations c) = Some v ->
               get k (variableDeclarations c') = Some v)
  /\ (forall k v, get k (classDeclarations c) = Some v ->
                  get k (classDeclarations c') = Some v).

(** The re-analysis of a declaration writes to the tables the way the
    analysis does, through [addVar] and [addClass]: it adds entries and
    touches none that is there. *)
Definition extends_only (H : host) : Prop :=
  forall e c h vars classes h',
    reanalyze H e c h = Ok (vars, classes, h') ->
    (forall k v, get k (variableDeclarations c) = Some v -> get k vars = Some v)
    /\ (forall k v, get k (classDeclarations c) = Some v -> get k classes = Some v).

(** Whatever the visit of [n] makes of a context is related to it by [R]. *)
Definition preserves (R : context -> context -> Prop)
    (visit : node -> context -> nat -> result (node * context * nat))
    (n : node) : Prop :=
  forall c h n' c' h', visit n c h = Ok (n', c', h') -> R c c'.

Definition case_preserves (R : context -> context -> Prop)
    (visit : node -> context -> nat -> result (node * context * nat))
    (k : node) : Prop :=
  match k with
  | Case x b | WhileStatement x b => preserves R visit x /\ preserves R visit b
  | _ => True
  end.

(** The context comes back as it went in. *)
Definition untouched (c c' : context) : Prop := c' = c.

(** Nodes with no declaration and no member access or subscript among the
    parts that are analyzed in the node's own context.  The bodies of
    loops and the branches of an if statement are analyzed in a context of
    their own and may hold anything. *)
Fixpoint scope_neutral (n : node) : bool :=
  match n with
  | StringLiteral _ _ | NoneLiteral _ | BooleanLiteral _ _ | NumericLiteral _ _
  | BreakStatement | ContinueStatement | IdentifierDeclaration _ _
  | IdentifierExpression _ _ _ | PrintStatement _
  | ClassicForLoop _ _ _ _ _ _ => true
  | Argument _ e | CallStatement e | UnaryExpression _ e _
  | WhileStatement e _ => scope_neutral e
  | ArrayExpression l _ | Block l | Call _ l _ _ _ | DictExpression l _
  | Program l | SetExpression l _ | TupleExpression l _
  | IfStatement l _ _ => forallb scope_neutral l
  | AssignmentStatement l l' => forallb scope_neutral l && forallb scope_neutral l'
  | BinaryExpression _ a b _ | Case a b | KeyValueExpression a b
  | SpreadForLoop a b _ => scope_neutral a && scope_neutral b
  | DefaultCase o | ReturnStatement o _ =>
      match o with Some x => scope_neutral x | None => true end
  | SwitchStatement e cases _ =>
      scope_neutral e
      && forallb (fun k =>
                    match k with
                    | Case x b => scope_neutral x && scope_neutral b
                    | _ => false
                    end) cases
  | ClassDeclaration _ _ _ | FunctionDeclaration _ _ _ _ _
  | MemberExpression _ _ _ | ParameterNode _ _ _
  | SubscriptedExpression _ _ _ | VariableDeclaration _ _ _ _ => false
  end.

(** The node binds the key in the variable table of the context it is
    analyzed in. *)
Definition declares (n : node) (x : key) : Prop :=
  match n with
  | VariableDeclaration _ _ ids _ => In x (map id_of ids)
  | FunctionDeclaration _ _ i _ _ | ParameterNode _ i _ => x = i
  | _ => False
  end.

(** What the switch rule does with one of its cases: the step of
    [each_case]. *)
Definition one_case
    (visit : node -> context -> nat -> result (node * context * nat))
    (k : node) (c : context) (h : nat) : result (node * context * nat) :=
  match k with
  | Case x b =>
      '(x', c, h) ← visit x c h;
      _ ← check.isBoolean (type_of x');
      '(b', c, h) ← visit b c h;
      Ok (Case x' b', c, h)
  | WhileStatement x b =>
      '(x', c, h) ← visit x c h;
      _ ← check.isBoolean (type_of x');
      '(b', c, h) ← visit b c h;
      Ok (WhileStatement x' b', c, h)
  | Argument _ x | PrintStatement x | SwitchStatement x _ _
  | ParameterNode _ _ (Some x) | ReturnStatement (Some x) _ =>
      '(x', c, h) ← visit x c h;
      _ ← check.isBoolean (type_of x');
      Throw (RuntimeTypeError "body is undefined")
  | _ => Throw (RuntimeTypeError "expression is undefined")
  end.

(** * Properties *)

(** ** Scope tables *)

Lemma has_true (k : key) (m : jsmap) :
  has k m = true <-> is_Some (get k m).
Proof. unfold has, get. apply bool_decide_eq_true. Qed.

Lemma has_false (k : key) (m : jsmap) :
  has k m = false <-> get k m = None.
Proof.
  unfold has, get. rewrite bool_decide_eq_false.
  split; [apply eq_None_not_Some | intros ->; apply is_Some_None].
Qed.

Lemma has_new_Map (k : key) : has k new_Map = false.
Proof. apply has_false. unfold get, new_Map; simpl. apply lookup_empty. Qed.

Lemma get_set (k k' : key) (v : entity) (m : jsmap) :
  get k' (set k v m) = if decide (k = k') then Some v else get k' m.
Proof. unfold get, set; simpl. apply lookup_insert. Qed.

Lemma has_set (k k' : key) (v : entity) (m : jsmap) :
  has k' (set k v m) = if decide (k = k') then true else has k' m.
Proof.
  case_decide as Heq.
  - apply has_true. rewrite get_set, decide_True by assumption. eauto.
  - unfold has. apply bool_decide_ext. fold (get k' (set k v m)).
    rewrite get_set, decide_False by assumption. reflexivity.
Qed.

Lemma lookupVar_own (this : context) (id : key) (e : entity) :
  get id (variableDeclarations this) = Some e -> lookupVar this id = Ok e.
Proof.
  intros Hget. destruct this as [p f l vars classes]; simpl in *.
  rewrite Hget. reflexivity.
Qed.

Lemma lookupClass_own (this : context) (id : key) (e : entity) :
  get id (classDeclarations this) = Some e -> lookupClass this id = Ok e.
Proof.
  intros Hget. destruct this as [p f l vars classes]; simpl in *.
  rewrite Hget. reflexivity.
Qed.

Lemma addVar_fresh (this : context) (id : key) (e : entity) :
  has id (variableDeclarations this) = false ->
  exists c, addVar this id e = Ok c /\ lookupVar c id = Ok e
            /\ parent c = parent this /\ inLoop c = inLoop this.
Proof.
  intros Hfree. unfold addVar. rewrite Hfree. eexists. split; [reflexivity|].
  split; [|split; reflexivity].
  apply lookupVar_own. simpl. rewrite get_set. apply decide_True. reflexivity.
Qed.

Lemma addClass_fresh (this : context) (id : key) (e : entity) :
  has id (classDeclarations this) = false ->
  exists c, addClass this id e = Ok c /\ lookupClass c id = Ok e
            /\ parent c = parent this /\ inLoop c = inLoop this.
Proof.
  intros Hfree. unfold addClass. rewrite Hfree. eexists. split; [reflexivity|].
  split; [|split; reflexivity].
  apply lookupClass_own. simpl. rewrite get_set. apply decide_True. reflexivity.
Qed.

Lemma child_tables_empty (this child : context) :
  child_of this child ->
  variableDeclarations child = new_Map /\ classDeclarations child = new_Map
  /\ parent child = Some this.
Proof. intros [[f ->]|[->| ->]]; repeat split. Qed.

(** C5: in every scope, declaring a variable (or a class) under a name
    that the scope's own table already holds fails with the
    duplicate-declaration error; declaring that same name in a freshly
    created child scope succeeds, and the child then resolves the name to
    the new declaration, whatever the outer scopes hold. *)
Theorem redeclaration_fails_shadowing_succeeds
    (this : context) (id : key) (e : entity) :
  (has id (variableDeclarations this) = true ->
     addVar this id e = Throw AlreadyDeclared)
  /\ (has id (classDeclarations this) = true ->
     addClass this id e = Throw ClassAlreadyDeclared)
  /\ kind_of AlreadyDeclared = DeclarationError
  /\ kind_of ClassAlreadyDeclared = DeclarationError
  /\ forall child, child_of this child ->
       (exists c, addVar child id e = Ok c /\ lookupVar c id = Ok e)
       /\ (exists c, addClass child id e = Ok c /\ lookupClass c id = Ok e).
Proof.
  split; [|split; [|split; [|split]]]; try reflexivity.
  - intros Hin. unfold addVar. rewrite Hin. reflexivity.
  - intros Hin. unfold addClass. rewrite Hin. reflexivity.
  - intros child Hchild.
    destruct (child_tables_empty this child Hchild) as (Hv & Hc & _).
    split.
    + destruct (addVar_fresh child id e) as (c & Hadd & Hlook & _).
      { rewrite Hv. apply has_new_Map. }
      eauto.
    + destruct (addClass_fresh child id e) as (c & Hadd & Hlook & _).
      { rewrite Hc. apply has_new_Map. }
      eauto.
Qed.

(** A scope that declares [x], redeclaring it, and shadowing it in a block. *)
Lemma redeclaration_fails_shadowing_succeeds_witness :
  let x := Some "x" in
  let old := VariableEntity false (Some IntType) x in
  let new := VariableEntity false (Some StringType) x in
  let this :=
    Context None None false (set x old new_Map) (set x (ClassEntity x []) new_Map) in
  addVar this x new = Throw AlreadyDeclared
  /\ addClass this x new = Throw ClassAlreadyDeclared
  /\ exists c, addVar (createChildContextForBlock this) x new = Ok c
             /\ lookupVar c x = Ok new.
Proof.
  intros x old new this.
  destruct (redeclaration_fails_shadowing_succeeds this x new)
    as (Hvar & Hclass & _ & _ & Hchild).
  split; [apply Hvar; vm_compute; reflexivity|].
  split; [apply Hclass; vm_compute; reflexivity|].
  apply (Hchild (createChildContextForBlock this)).
  right; right; reflexivity.
Defined.

(** ** The root scope *)

Lemma set_property_entries (fs : list (string * entity)) (m : jsmap) :
  entries (fold_left (fun m f => set_property (fst f) (snd f) m) fs m) = entries m.
Proof. revert m. induction fs as [|f fs IH]; intros m; simpl; [|rewrite IH]; reflexivity. Qed.

Lemma set_property_listed (fs : list (string * entity)) (m : jsmap) (f : string * entity) :
  In f fs ->
  In f (properties (fold_left (fun m f => set_property (fst f) (snd f) m) fs m)).
Proof.
  revert m. induction fs as [|g fs IH]; intros m; simpl; [tauto|].
  assert (forall l m', In f (properties m') ->
            In f (properties (fold_left (fun m f => set_property (fst f) (snd f) m) l m')))
    as Hkeep.
  { induction l as [|x l IHl]; intros m' Hin; simpl; [assumption|].
    apply IHl. simpl. right. assumption. }
  intros [->|Hin]; [|apply IH; assumption].
  apply Hkeep. simpl. left. destruct f; reflexivity.
Qed.

Lemma lookupClass_has (this : context) (id : key) :
  has id (classDeclarations this) = true -> succeeds (lookupClass this id).
Proof.
  intros Hhas. destruct (proj1 (has_true _ _) Hhas) as [e He].
  exists e. apply lookupClass_own. assumption.
Qed.

(** C3: in the root scope the standard functions are written onto the
    variable table as object properties ([variableDeclarations[f.id] = f]),
    not as entries, so a variable lookup started from the root fails for
    every name, standard function names included; the five primitive type
    names are entered with [set] and the class lookup finds each of them. *)
Theorem INITIAL_lookups (b : builtins) :
  (forall f, In f (standardFunctions b) ->
             In f (properties (variableDeclarations (INITIAL b))))
  /\ (forall id : key, lookupVar (INITIAL b) id = Throw (NotDeclared id))
  /\ Forall (fun t => succeeds (lookupClass (INITIAL b) (name b t)))
            [IntType; LongType; StringType; BooleanType; NoneType].
Proof.
  split; [|split].
  - intros f Hin. unfold INITIAL; simpl. apply set_property_listed. assumption.
  - intros id. unfold INITIAL; simpl.
    assert (get id (fold_left (fun m f => set_property (fst f) (snd f) m)
                      (standardFunctions b) new_Map) = None) as ->; [|reflexivity].
    unfold get. rewrite set_property_entries. apply lookup_empty.
  - repeat constructor; apply lookupClass_has; unfold INITIAL; simpl;
      repeat (rewrite has_set; case_decide; [reflexivity|]); congruence.
Qed.

(** The root scope built from a list that holds a [print] function. *)
Example INITIAL_print_not_found :
  In ("print", FunctionEntity false (Some NoneType) (Some "print")
                 [(Some StringType, Some "s")])
     (standardFunctions some_builtins)
  /\ lookupVar (INITIAL some_builtins) (Some "print")
     = Throw (NotDeclared (Some "print"))
  /\ lookupClass (INITIAL some_builtins) (Some "digitz") = Ok (BuiltinType IntType).
Proof. split; [left; reflexivity|]. split; vm_compute; reflexivity. Qed.

(** ** Results *)

Lemma bind_Ok {A B} (r : result A) (k : A -> result B) (b : B) :
  r ≫= k = Ok b -> exists a, r = Ok a /\ k a = Ok b.
Proof. destruct r as [a|e]; simpl; [eauto|discriminate]. Qed.

Lemma bind_fails {A B} (r : result A) (k : A -> result B) :
  (forall a, r = Ok a -> fails (k a)) -> fails (r ≫= k).
Proof. destruct r as [a|e]; simpl; [auto|intros _; eexists; reflexivity]. Qed.

Lemma doCheck_Ok (rule : string) (b : bool) (u : unit) :
  doCheck rule b = Ok u -> b = true.
Proof. destruct b; [reflexivity|discriminate]. Qed.

(** One step of reading a successful run backwards. *)
Ltac step :=
  match goal with
  | Hyp : Throw _ = Ok _ |- _ => discriminate Hyp
  | Hyp : Ok _ = Ok _ |- _ => injection Hyp as Hyp; subst
  | Hyp : (_ ≫= _) = Ok _ |- _ =>
      let a := fresh "a" in
      let Hs := fresh "Hs" in
      apply bind_Ok in Hyp; destruct Hyp as (a & Hs & Hyp)
  | Hyp : (let '(_, _) := ?p in _) = Ok _ |- _ => destruct p
  | Hyp : (if ?b then _ else _) = Ok _ |- _ => destruct b eqn:?
  end.

(** ** Unfolding the rules that walk a list *)

Lemma analyze_Block (H : host) (ss : list node) (ctx : context) (h : nat) :
  analyze H (Block ss) ctx h
  = '(ss', c, h) ← each (analyze H) ss ctx h; Ok (Block ss', c, h).
Proof. reflexivity. Qed.

Lemma analyze_Program (H : host) (ss : list node) (ctx : context) (h : nat) :
  analyze H (Program ss) ctx h
  = '(ss', c, h) ← each (analyze H) ss ctx h; Ok (Program ss', c, h).
Proof. reflexivity. Qed.

Lemma each_cons (H : host) (m : node) (r : list node)
    (ctx : context) (h : nat) :
  each (analyze H) (m :: r) ctx h
  = '(m', c, h) ← analyze H m ctx h;
    '(r', c, h) ← each (analyze H) r c h;
    Ok (m' :: r', c, h).
Proof. reflexivity. Qed.

(** A list that holds a node whose analysis fails wherever it runs is not
    walked to its end. *)
Lemma each_fails (H : host) (pre post : list node) (m : node) :
  (forall c h, fails (analyze H m c h)) ->
  forall c h, fails (each (analyze H) (pre ++ m :: post) c h).
Proof.
  intros Hm. induction pre as [|x pre IH]; intros c h.
  - simpl app. rewrite each_cons.
    destruct (Hm c h) as [e ->]. eexists; reflexivity.
  - simpl app. rewrite each_cons.
    apply bind_fails. intros [[x' c'] h'] _.
    destruct (IH c' h') as [e ->]. eexists; reflexivity.
Qed.


Lemma analyze_eq (H : host) (n : node) (ctx : context) (h : nat) :
  analyze H n ctx h = rules H (analyze H) n ctx h.
Proof. destruct n; reflexivity. Qed.

(** ** Contexts keep their frame *)

Lemma addVar_frame c id e c' : addVar c id e = Ok c' -> frame c' = frame c.
Proof. unfold addVar. intros Hc. repeat step. reflexivity. Qed.

Lemma addClass_frame c id e c' : addClass c id e = Ok c' -> frame c' = frame c.
Proof. unfold addClass. intros Hc. repeat step. reflexivity. Qed.

Lemma addVars_frame k t ids : forall c c', addVars k t ids c = Ok c' -> frame c' = frame c.
Proof.
  induction ids as [|id r IH]; intros c c' Hc; simpl in Hc; repeat step.
  - reflexivity.
  - apply IH in Hc. apply addVar_frame in Hs. congruence.
Qed.

Lemma entity_analyze_frame H e c h c' h' :
  entity_analyze H e c h = Ok (c', h') -> frame c' = frame c.
Proof.
  unfold entity_analyze. intros Hc.
  destruct e; try discriminate Hc; repeat step; reflexivity.
Qed.

Ltac frames :=
  repeat match goal with
  | Hk : keeps_frame ?v ?x, Hs : ?v ?x _ _ = Ok _ |- _ => apply Hk in Hs
  | Hk : keeps_frame ?v ?x /\ _ |- _ => destruct Hk
  | Hs : addVar _ _ _ = Ok _ |- _ => apply addVar_frame in Hs
  | Hs : addClass _ _ _ = Ok _ |- _ => apply addClass_frame in Hs
  | Hs : addVars _ _ _ _ = Ok _ |- _ => apply addVars_frame in Hs
  | Hs : entity_analyze _ _ _ _ = Ok _ |- _ => apply entity_analyze_frame in Hs
  end;
  try reflexivity; try congruence.

Lemma each_frame visit l :
  Forall (keeps_frame visit) l ->
  forall c h l' c' h', each visit l c h = Ok (l', c', h') -> frame c' = frame c.
Proof.
  induction 1 as [|m r Hm Hr IH]; intros c h l' c' h' Hc; simpl in Hc; repeat step.
  - frames.
  - match goal with Hr : each _ _ _ _ = Ok _ |- _ => apply IH in Hr end. frames.
Qed.

Lemma each_test_frame visit l :
  Forall (keeps_frame visit) l ->
  forall c h l' c' h', each_test visit l c h = Ok (l', c', h') -> frame c' = frame c.
Proof.
  induction 1 as [|m r Hm Hr IH]; intros c h l' c' h' Hc; simpl in Hc; repeat step.
  - frames.
  - match goal with Hr : each_test _ _ _ _ = Ok _ |- _ => apply IH in Hr end. frames.
Qed.

Lemma each_member_frame visit l :
  Forall (keeps_frame visit) l ->
  forall acc c h l' acc' c' h',
    each_member visit l acc c h = Ok (l', acc', c', h') -> frame c' = frame c.
Proof.
  induction 1 as [|m r Hm Hr IH]; intros acc c h l' acc' c' h' Hc; simpl in Hc;
    repeat step.
  - frames.
  - match goal with Hr : each_member _ _ _ _ _ = Ok _ |- _ => apply IH in Hr end. frames.
Qed.

Lemma each_case_frame visit l :
  Forall (case_keeps_frame visit) l ->
  forall c h l' c' h', each_case visit l c h = Ok (l', c', h') -> frame c' = frame c.
Proof.
  induction 1 as [|k r Hk Hr IH]; intros c h l' c' h' Hc; simpl in Hc.
  - repeat step. frames.
  - step. destruct a as [[k' c1] h1]. repeat step.
    match goal with Hr : each_case _ _ _ _ = Ok _ |- _ => apply IH in Hr; rewrite Hr end.
    clear IH Hr.
    destruct k; try discriminate; simpl in Hk;
      try (match goal with o : option node |- _ => destruct o; try discriminate end);
      repeat step; frames.
Qed.

Lemma assign_frame visit target source :
  Forall (keeps_frame visit) target -> Forall (keeps_frame visit) source ->
  forall c h t' s' c' h',
    assign visit target source c h = Ok (t', s', c', h') -> frame c' = frame c.
Proof.
  intros Ht Hs c h t' s' c' h' Hc. unfold assign in Hc. repeat step.
  repeat match goal with
         | Hr : each _ _ _ _ = Ok _ |- _ => apply each_frame in Hr; [|assumption]
         end.
  congruence.
Qed.

(** Analysis never changes the parent, the function or the loop flag of
    the context it is given. *)
Lemma analyze_frame (H : host) :
  forall n, keeps_frame (analyze H) n.
Proof.
  fix IH 1. intros n.
  destruct n; intros c h n' c' h' Hc; rewrite analyze_eq in Hc; unfold rules in Hc.
  all: repeat match goal with
       | l : list node |- _ =>
           lazymatch goal with
           | _ : Forall (keeps_frame _) l |- _ => fail
           | _ => assert (Forall (keeps_frame (analyze H)) l)
                    by (clear - IH; induction l; constructor; [apply IH|assumption])
           end
       end.
  all: try match goal with
       | l : list node, Hyp : context [each_case _ ?l] |- _ =>
           assert (Forall (case_keeps_frame (analyze H)) l)
             by (clear - IH; induction l as [|k l IHl]; constructor;
                 [destruct k; simpl; try split; try exact I; apply IH|assumption])
       end.
  all: repeat first
       [ step
       | match goal with
         | Hyp : match ?x with _ => _ end = Ok _ |- _ => is_var x; destruct x
         end ].
  all: repeat match goal with
       | Hs : analyze _ ?x _ _ = Ok _ |- _ => apply (IH x) in Hs
       | Hs : each _ _ _ _ = Ok _ |- _ => apply each_frame in Hs; [|assumption]
       | Hs : each_test _ _ _ _ = Ok _ |- _ => apply each_test_frame in Hs; [|assumption]
       | Hs : each_case _ _ _ _ = Ok _ |- _ => apply each_case_frame in Hs; [|assumption]
       | Hs : each_member _ _ _ _ _ = Ok _ |- _ => apply each_member_frame in Hs; [|assumption]
       | Hs : assign _ _ _ _ _ = Ok _ |- _ => apply assign_frame in Hs; [|assumption|assumption]
       end.
  all: frames.
Qed.

Lemma each_analyze_frame (H : host) (l : list node) c h l' c' h' :
  each (analyze H) l c h = Ok (l', c', h') -> frame c' = frame c.
Proof.
  apply each_frame. apply List.Forall_forall. intros m _. apply analyze_frame.
Qed.

Lemma not_succeeds_fails {A} (r : result A) : (forall a, r <> Ok a) -> fails r.
Proof. destruct r as [a|e]; [intros Hr; destruct (Hr a eq_refl)|eexists; reflexivity]. Qed.

(** ** Break and continue *)

Lemma break_in_function_fails (H : host) a t f params stmt ctx h :
  stmt = BreakStatement \/ stmt = ContinueStatement ->
  fails (analyze H (FunctionDeclaration a t f params (Block [stmt])) ctx h).
Proof.
  intros Hstmt. apply not_succeeds_fails. intros [[n' c'] h'] Hc.
  rewrite analyze_eq in Hc. unfold rules in Hc. repeat step.
  match goal with
  | Hp : each _ _ _ _ = Ok _ |- _ => apply each_analyze_frame in Hp; injection Hp as _ _ Hloop
  end.
  match goal with
  | Hb : analyze _ (Block _) _ _ = Ok _ |- _ =>
      rewrite analyze_Block, each_cons in Hb; simpl inLoop in Hb;
      destruct Hstmt as [-> | ->]; simpl in Hb; rewrite Hloop in Hb; discriminate Hb
  end.
Qed.

(** C6: a break or a continue is accepted exactly when the context it is
    analyzed in has its inside-loop flag set.  A loop-body context has the
    flag set and a block context inherits it, so a break in a while body,
    or in an if branch inside one, is accepted; a function-body context has
    the flag cleared, so a break in the body of a function is rejected
    wherever the function is declared, inside a loop included. *)
Theorem break_continue_iff_inLoop (H : host) (ctx : context) (h : nat) :
  (succeeds (analyze H BreakStatement ctx h) <-> inLoop ctx = true)
  /\ (succeeds (analyze H ContinueStatement ctx h) <-> inLoop ctx = true)
  /\ inLoop (createChildContextForLoop ctx) = true
  /\ inLoop (createChildContextForBlock ctx) = inLoop ctx
  /\ (forall f, inLoop (createChildContextForFunctionBody ctx f) = false)
  /\ succeeds (analyze H (WhileStatement (BooleanLiteral true None)
                            (Block [BreakStatement; ContinueStatement])) ctx h)
  /\ succeeds (analyze H (WhileStatement (BooleanLiteral true None)
                 (Block [IfStatement [BooleanLiteral true None]
                           [Block [BreakStatement]]
                           (Some (Block [ContinueStatement]))])) ctx h)
  /\ (forall a t f params stmt,
        stmt = BreakStatement \/ stmt = ContinueStatement ->
        fails (analyze H (FunctionDeclaration a t f params (Block [stmt])) ctx h)
        /\ fails (analyze H (WhileStatement (BooleanLiteral true None)
                    (Block [FunctionDeclaration a t f params (Block [stmt])])) ctx h)).
Proof.
  assert (forall b : bool, succeeds (doCheck "inLoop" b) -> b = true) as Hcheck.
  { intros [|] [u Hu]; [reflexivity|discriminate]. }
  repeat split; try reflexivity.
  - intros [r Hr]. rewrite analyze_eq in Hr. unfold rules, check.inLoop in Hr.
    destruct (inLoop ctx); [reflexivity|discriminate].
  - intros Hin. rewrite analyze_eq. unfold rules, check.inLoop. rewrite Hin.
    eexists; reflexivity.
  - intros [r Hr]. rewrite analyze_eq in Hr. unfold rules, check.inLoop in Hr.
    destruct (inLoop ctx); [reflexivity|discriminate].
  - intros Hin. rewrite analyze_eq. unfold rules, check.inLoop. rewrite Hin.
    eexists; reflexivity.
  - eexists; reflexivity.
  - eexists; reflexivity.
  - apply break_in_function_fails. assumption.
  - apply not_succeeds_fails. intros [[n' c'] h'] Hc.
    rewrite analyze_eq in Hc. unfold rules in Hc. repeat step.
    match goal with
    | Hb : analyze _ (Block _) ?c ?h = Ok _ |- _ =>
        rewrite analyze_Block, each_cons in Hb;
        destruct (break_in_function_fails H a t f params stmt c h) as [e He];
        [assumption|rewrite He in Hb; discriminate Hb]
    end.
Qed.

(** A scope inside a loop accepts a break; the root scope does not. *)
Lemma break_continue_iff_inLoop_witness :
  succeeds (analyze a_host BreakStatement (createChildContextForLoop root) 0)
  /\ ~ succeeds (analyze a_host BreakStatement root 0)
  /\ fails (analyze a_host
              (WhileStatement (BooleanLiteral true None)
                 (Block [FunctionDeclaration false leftOnRead (Some "f") []
                           (Block [BreakStatement])])) root 0).
Proof.
  split; [|split].
  - apply (proj1 (break_continue_iff_inLoop a_host (createChildContextForLoop root) 0)).
    reflexivity.
  - intros Hok.
    apply (proj1 (break_continue_iff_inLoop a_host root 0)) in Hok.
    discriminate Hok.
  - apply (proj2 (proj2 (proj2 (proj2 (proj2 (proj2 (proj2
             (break_continue_iff_inLoop a_host root 0)))))))).
    left; reflexivity.
Defined.

(** ** Return *)

(** C10: the return rule calls [analyze] on the statement's expression
    before anything else, so a return node without an expression makes
    the analysis throw, in every context; a function declared with the
    void marker whose body holds such a return is rejected as well. *)
Theorem bare_return_fails (H : host) (t : tyfield) (ctx : context) (h : nat) :
  analyze H (ReturnStatement None t) ctx h
  = Throw (RuntimeTypeError "expression is undefined")
  /\ (forall a f params pre post,
        fails (analyze H (FunctionDeclaration a leftOnRead f params
                            (Block (pre ++ ReturnStatement None t :: post))) ctx h))
  /\ (forall pre post,
        fails (analyze H (Program (pre ++ ReturnStatement None t :: post)) ctx h)).
Proof.
  assert (forall c h', fails (analyze H (ReturnStatement None t) c h')) as Hbare.
  { intros c h'. eexists; reflexivity. }
  split; [reflexivity|split].
  - intros a f params pre post. apply not_succeeds_fails. intros [[n' c'] h'] Hc.
    rewrite analyze_eq in Hc. unfold rules in Hc. repeat step.
    match goal with
    | Hb : analyze _ (Block _) ?c ?h = Ok _ |- _ =>
        rewrite analyze_Block in Hb;
        destruct (each_fails H pre post _ Hbare c h) as [e He];
        rewrite He in Hb; discriminate Hb
    end.
  - intros pre post. rewrite analyze_Program.
    destruct (each_fails H pre post _ Hbare ctx h) as [e ->].
    eexists; reflexivity.
Qed.

Lemma INITIAL_has_no_variable (b : builtins) (id : key) :
  has id (variableDeclarations (INITIAL b)) = false.
Proof.
  apply has_false. unfold get, INITIAL; simpl.
  rewrite set_property_entries. apply lookup_empty.
Qed.

Lemma addVar_INITIAL (b : builtins) (id : key) (e : entity) :
  addVar (INITIAL b) id e
  = Ok (Context None None false
          (set id e (variableDeclarations (INITIAL b)))
          (classDeclarations (INITIAL b))).
Proof. unfold addVar. rewrite INITIAL_has_no_variable. reflexivity. Qed.

(** C2: the guard against a value-carrying return in a void function tests
    the [type] property of the return statement itself, which a parsed
    return statement does not have, and by then the function's own type
    has been rewritten from the void marker to the None type.  A void
    function returning a None-typed value is therefore accepted, and one
    returning a string is rejected by the assignability check, not by the
    guard. *)
Theorem void_function_return_accepted (H : host) (b : builtins) :
  let f body := FunctionDeclaration false leftOnRead (Some "f") [] (Block [body]) in
  analyzed (analyzer H b (Program [f (ReturnStatement (Some (NoneLiteral None)) None)]))
  = Some (Program [FunctionDeclaration false (Some NoneType) (Some "f") []
                     (Block [ReturnStatement (Some (NoneLiteral (Some NoneType))) None])])
  /\ analyzer H b (Program [f (ReturnStatement (Some (StringLiteral "I love myself" None)) None)])
     = Throw (CheckError "isAssignableTo")
  /\ kind_of (CheckError "isAssignableTo") = TypeError
  /\ kind_of VoidReturn = ControlFlowError
  /\ (forall x ctx h x' c' h',
        analyze H x ctx h = Ok (x', c', h') ->
        analyze H (ReturnStatement (Some x) None) ctx h <> Throw VoidReturn).
Proof.
  intros f. unfold analyzer, f.
  split; [|split; [|split; [|split]]]; try reflexivity;
    [| |intros x ctx h x' c' h' Hx; rewrite analyze_eq; unfold rules;
        rewrite Hx; simpl; unfold check.inFunction, check.isAssignableTo;
        repeat match goal with
               | |- context [doCheck ?r ?b] => destruct b; simpl
               end; discriminate].
  - rewrite analyze_Program, each_cons, analyze_eq. unfold rules.
    simpl each. cbn beta iota zeta delta [mbind result_bind same_object leftOnRead map].
    rewrite String.eqb_refl, addVar_INITIAL. reflexivity.
  - rewrite analyze_Program, each_cons, analyze_eq. unfold rules.
    simpl each. cbn beta iota zeta delta [mbind result_bind same_object leftOnRead map].
    rewrite String.eqb_refl, addVar_INITIAL. reflexivity.
Qed.

(** ** Switch: the default case *)

(** C4: the switch rule wraps the default case in a new [DefaultCase] node
    and never calls [analyze] on it.  Whether a switch is accepted does
    not depend on its default case; the body comes back as it went in; a
    break in the default body of a switch outside every loop, which the
    [DefaultCase] rule itself rejects, goes unnoticed. *)
Theorem switch_default_not_analyzed (H : host) (b : builtins) :
  (forall e cases alternate ctx h,
     succeeds (analyze H (SwitchStatement e cases alternate) ctx h)
     <-> succeeds (analyze H (SwitchStatement e cases None) ctx h))
  /\ (forall e cases body ctx h n',
        analyzed (analyze H (SwitchStatement e cases (Some (DefaultCase body))) ctx h)
        = Some n' ->
        exists e' cases', n' = SwitchStatement e' cases' (Some (DefaultCase body)))
  /\ (let body := Block [BreakStatement] in
      analyze H (DefaultCase (Some body)) (INITIAL b) 0 = Throw (CheckError "inLoop")
      /\ analyzer H b (Program [SwitchStatement (NumericLiteral 0 None) []
                                  (Some (DefaultCase (Some body)))])
         = Ok (Program [SwitchStatement (NumericLiteral 0 (Some IntType)) []
                          (Some (DefaultCase (Some body)))],
               INITIAL b, 0)).
Proof.
  split; [|split].
  - intros e cases alternate ctx h.
    rewrite !(analyze_eq H (SwitchStatement _ _ _)). unfold rules.
    destruct (analyze H e ctx h) as [[[e' c] h']|err]; simpl;
      [|split; intros [r Hr]; discriminate Hr].
    destruct (each_case (analyze H) cases c h') as [[[cases' c'] h'']|err]; simpl;
      split; intros [r Hr]; try discriminate Hr; eexists; reflexivity.
  - intros e cases body ctx h n'.
    rewrite analyze_eq. unfold rules.
    destruct (analyze H e ctx h) as [[[e' c] h']|err]; simpl; [|discriminate].
    destruct (each_case (analyze H) cases c h') as [[[cases' c'] h'']|err]; simpl;
      [|discriminate].
    intros [= <-]. eauto.
  - split; reflexivity.
Qed.

(** ** Print, and the types of expressions *)

(** C1: the print rule does not analyze its argument (the call is
    commented out), so the argument comes back exactly as it went in; the
    program that prints a string literal is accepted and its literal is
    left without a type.  A unary expression whose operator is none of
    [BANGENERGY], [-] and [+] is accepted with its [type] untouched. *)
Theorem print_argument_not_analyzed (H : host) (b : builtins) :
  (forall e ctx h, analyze H (PrintStatement e) ctx h = Ok (PrintStatement e, ctx, h))
  /\ (let program := Program [PrintStatement (StringLiteral "hi" None)] in
      analyzer H b program = Ok (program, INITIAL b, 0)
      /\ every_expression_typed program = false)
  /\ (forall op e t ctx h e' c' h',
        op <> "BANGENERGY" -> op <> "-" -> op <> "+" ->
        analyze H e ctx h = Ok (e', c', h') ->
        analyze H (UnaryExpression op e t) ctx h
        = Ok (UnaryExpression op e' t, c', h')).
Proof.
  split; [reflexivity|split; [split; reflexivity|]].
  intros op e t ctx h e' c' h' Hbang Hminus Hplus He.
  rewrite analyze_eq. unfold rules. rewrite He. simpl.
  apply String.eqb_neq in Hbang, Hminus, Hplus.
  rewrite Hbang, Hminus, Hplus. reflexivity.
Qed.

(** ** Switch: the scrutinee and the cases *)

Lemma isBoolean_Ok (t : tyfield) (u : unit) :
  check.isBoolean t = Ok u -> t = Some BooleanType.
Proof.
  unfold check.isBoolean. intros Hc. apply doCheck_Ok in Hc.
  destruct t as [[]|]; simpl in Hc; try discriminate Hc; reflexivity.
Qed.

Lemma each_case_boolean visit l :
  forall c h l' c' h',
    each_case visit l c h = Ok (l', c', h') -> Forall guard_is_boolean l'.
Proof.
  induction l as [|k r IH]; intros c h l' c' h' Hc; simpl in Hc.
  - repeat step. constructor.
  - step. destruct a as [[k' c1] h1]. repeat step.
    constructor; [|eapply IH; eassumption].
    destruct k; try discriminate;
      try (match goal with o : option node |- _ => destruct o; try discriminate end);
      repeat step; simpl; eapply isBoolean_Ok; eassumption.
Qed.

Lemma each_case_fails visit pre x b post :
  (forall c h x' c' h', visit x c h = Ok (x', c', h') -> type_of x' <> Some BooleanType) ->
  forall c h, fails (each_case visit (pre ++ Case x b :: post) c h).
Proof.
  intros Hx. induction pre as [|k pre IH]; intros c h; apply not_succeeds_fails;
    intros [[l' c'] h'] Hc; simpl in Hc.
  - step. destruct a as [[k' c1] h1]. clear Hc. repeat step.
    match goal with
    | Hv : visit x _ _ = Ok _, Hb : check.isBoolean _ = Ok _ |- _ =>
        apply Hx in Hv; apply isBoolean_Ok in Hb; contradiction
    end.
  - step. destruct a as [[k' c1] h1]. repeat step.
    match goal with
    | Hr : each_case _ _ ?c ?h = Ok _ |- _ =>
        destruct (IH c h) as [e He]; rewrite He in Hr; discriminate Hr
    end.
Qed.

(** C7: the switch rule analyzes the scrutinee and asks nothing of its
    type: two scrutinees whose analysis leaves the same context behind
    make the same switch accepted or rejected alike.  Every case of an
    accepted switch has a guard of type Boolean; a first case whose guard
    comes out of its analysis with another type, or with none, stops the
    analysis in the Boolean check, and so does, at any position, a case
    whose guard never types to Boolean. *)
Theorem switch_scrutinee_free_guards_boolean (H : host) :
  (forall e1 e2 cases alternate ctx h e1' e2' c' h',
     analyze H e1 ctx h = Ok (e1', c', h') ->
     analyze H e2 ctx h = Ok (e2', c', h') ->
     (succeeds (analyze H (SwitchStatement e1 cases alternate) ctx h)
      <-> succeeds (analyze H (SwitchStatement e2 cases alternate) ctx h)))
  /\ (forall e cases alternate ctx h n' c' h',
        analyze H (SwitchStatement e cases alternate) ctx h = Ok (n', c', h') ->
        exists e' cases' alternate',
          n' = SwitchStatement e' cases' alternate'
          /\ Forall guard_is_boolean cases')
  /\ (forall e x b post alternate ctx h e' c1 h1 x' c2 h2,
        analyze H e ctx h = Ok (e', c1, h1) ->
        analyze H x c1 h1 = Ok (x', c2, h2) ->
        type_of x' <> Some BooleanType ->
        analyze H (SwitchStatement e (Case x b :: post) alternate) ctx h
        = Throw (CheckError "isBoolean"))
  /\ (forall e pre x b post alternate ctx h,
        never_types_to H x BooleanType ->
        fails (analyze H (SwitchStatement e (pre ++ Case x b :: post) alternate) ctx h)).
Proof.
  split; [|split; [|split]].
  - intros e1 e2 cases alternate ctx h e1' e2' c' h' H1 H2.
    rewrite !(analyze_eq H (SwitchStatement _ _ _)). unfold rules.
    rewrite H1, H2. simpl.
    destruct (each_case (analyze H) cases c' h') as [[[cases' c''] h'']|err]; simpl;
      split; intros [r Hr]; try discriminate Hr; eexists; reflexivity.
  - intros e cases alternate ctx h n' c' h' Hc.
    rewrite analyze_eq in Hc. unfold rules in Hc. repeat step.
    do 3 eexists. split; [reflexivity|].
    eapply each_case_boolean. eassumption.
  - intros e x b post alternate ctx h e' c1 h1 x' c2 h2 He Hx Hty.
    rewrite analyze_eq. unfold rules. rewrite He. simpl. rewrite Hx. simpl.
    destruct (check.isBoolean (type_of x')) as [u|err] eqn:Hb.
    + apply isBoolean_Ok in Hb. contradiction.
    + unfold check.isBoolean, doCheck in Hb.
      destruct (same_object (type_of x') (Some BooleanType)); [discriminate Hb|].
      injection Hb as <-. reflexivity.
  - intros e pre x b post alternate ctx h Hx.
    apply not_succeeds_fails. intros [[n' c'] h'] Hc.
    rewrite analyze_eq in Hc. unfold rules in Hc. repeat step.
    match goal with
    | Hr : each_case _ _ ?c ?h = Ok _ |- _ =>
        destruct (each_case_fails (analyze H) pre x b post Hx c h) as [e0 He];
        rewrite He in Hr; discriminate Hr
    end.
Qed.

(** A switch over an integer and over a string with a Boolean guard, and
    the switch of the README, whose guards are the integers 0 and 6. *)
Lemma switch_scrutinee_free_guards_boolean_witness :
  let guarded e := SwitchStatement e [Case (BooleanLiteral true None) (Block [])] None in
  (succeeds (analyze a_host (guarded (NumericLiteral 0 None)) root 0)
   <-> succeeds (analyze a_host (guarded (StringLiteral "day" None)) root 0))
  /\ succeeds (analyze a_host (guarded (StringLiteral "day" None)) root 0)
  /\ fails (analyze a_host
              (SwitchStatement (NumericLiteral 0 None)
                 ([] ++ Case (NumericLiteral 0 None) (Block [BreakStatement])
                     :: [Case (NumericLiteral 6 None) (Block [BreakStatement])])
                 None) root 0).
Proof.
  intros guarded.
  destruct (switch_scrutinee_free_guards_boolean a_host) as (Hfree & _ & _ & Hguard).
  split; [|split].
  - apply (Hfree _ _ _ _ root 0 (NumericLiteral 0 (Some IntType))
             (StringLiteral "day" (Some StringType)) root 0); reflexivity.
  - eexists; reflexivity.
  - apply Hguard. intros c h x' c' h' Hx.
    injection Hx as <- _ _. discriminate.
Defined.

(** ** Tuples *)

Lemma loc_eqb_refl (l : loc) : loc_eqb l l = true.
Proof. destruct l; simpl; apply Nat.eqb_refl. Qed.

Lemma loc_eqb_sym (l l' : loc) : loc_eqb l l' = loc_eqb l' l.
Proof. destruct l, l'; simpl; try reflexivity; apply Nat.eqb_sym. Qed.

Lemma same_object_refl (t : tyfield) : same_object t t = true.
Proof.
  destruct t as [[]|]; simpl; try reflexivity;
    try apply loc_eqb_refl; apply String.eqb_refl.
Qed.

Lemma same_object_sym (a b : tyfield) : same_object a b = same_object b a.
Proof.
  destruct a as [[]|], b as [[]|]; simpl; try reflexivity;
    try apply loc_eqb_sym; apply String.eqb_sym.
Qed.

Lemma same_object_by_value (a b : tyfield) :
  by_value a = true -> same_object a b = true -> b = a.
Proof.
  destruct a as [[]|], b as [[]|]; simpl; try discriminate; try reflexivity.
  intros _ Heq. apply String.eqb_eq in Heq. congruence.
Qed.

Lemma Set_add_In (t m : tyfield) (s : list tyfield) :
  In m (Set_add t s) -> In m s \/ m = t.
Proof.
  unfold Set_add. destruct (existsb (same_object t) s); [tauto|].
  intros Hin. apply in_app_or in Hin. destruct Hin as [Hin|[<-|[]]]; tauto.
Qed.

Lemma Set_add_holds (t : tyfield) (s : list tyfield) :
  existsb (same_object t) (Set_add t s) = true.
Proof.
  unfold Set_add. destruct (existsb (same_object t) s) eqn:Hin; [assumption|].
  rewrite existsb_app. simpl. rewrite same_object_refl. apply orb_true_intro.
  right. reflexivity.
Qed.

Lemma Set_add_keeps (t u : tyfield) (s : list tyfield) :
  existsb (same_object u) s = true -> existsb (same_object u) (Set_add t s) = true.
Proof.
  unfold Set_add. destruct (existsb (same_object t) s); [tauto|].
  intros Hin. rewrite existsb_app, Hin. reflexivity.
Qed.

Lemma distinct_objects_app (s : list tyfield) (t : tyfield) :
  distinct_objects s = true -> existsb (same_object t) s = false ->
  distinct_objects (s ++ [t]) = true.
Proof.
  induction s as [|a s IH]; simpl; [reflexivity|].
  intros Hd Hnew.
  apply andb_prop in Hd. destruct Hd as [Ha Hs].
  apply orb_false_elim in Hnew. destruct Hnew as [Hta Hts].
  rewrite existsb_app. simpl. rewrite same_object_sym, Hta.
  apply negb_true_iff in Ha. rewrite Ha. simpl. apply IH; assumption.
Qed.

Lemma Set_add_distinct (t : tyfield) (s : list tyfield) :
  distinct_objects s = true -> distinct_objects (Set_add t s) = true.
Proof.
  intros Hd. unfold Set_add.
  destruct (existsb (same_object t) s) eqn:Hin; [assumption|].
  apply distinct_objects_app; assumption.
Qed.

(** What the walk over the elements of a tuple literal builds. *)
Lemma each_member_spec visit l :
  forall acc c h l' acc' c' h',
    each_member visit l acc c h = Ok (l', acc', c', h') ->
    length l' = length l
    /\ (distinct_objects acc = true -> distinct_objects acc' = true)
    /\ (forall u, existsb (same_object u) acc = true ->
                  existsb (same_object u) acc' = true)
    /\ (forall e, In e l' -> existsb (same_object (type_of e)) acc' = true)
    /\ (forall m, In m acc' -> In m acc \/ exists e, In e l' /\ type_of e = m).
Proof.
  induction l as [|x r IH]; intros acc c h l' acc' c' h' Hc; simpl in Hc; repeat step.
  - repeat split; auto; intros e [].
  - match goal with
    | Hr : each_member _ _ _ _ _ = Ok _ |- _ =>
        apply IH in Hr; destruct Hr as (Hlen & Hd & Hkeep & Hall & Hfrom)
    end.
    split; [simpl; congruence|].
    split; [intros Hacc; apply Hd, Set_add_distinct, Hacc|].
    split; [intros u Hu; apply Hkeep, Set_add_keeps, Hu|].
    split.
    + intros e [<-|Hin]; [apply Hkeep, Set_add_holds|apply Hall, Hin].
    + intros m Hm. destruct (Hfrom m Hm) as [Hin|(e & He & Ht)].
      * apply Set_add_In in Hin. destruct Hin as [Hin| ->]; [left; assumption|].
        right. eexists. split; [left; reflexivity|reflexivity].
      * right. exists e. split; [right; assumption|assumption].
Qed.

(** What the tuple rule does achieve: the type attached to a non-empty
    tuple literal is a Tuple whose member list holds the type of every
    element, holds nothing else and holds no descriptor object twice;
    elements whose type is one of the singleton descriptors therefore
    share one entry.  An empty tuple literal is typed as a Set of the None
    type. *)
Theorem tuple_type_members (H : host) (es : list node) (t : tyfield)
    (ctx : context) (h : nat) (n' : node) (c' : context) (h' : nat) :
  analyze H (TupleExpression es t) ctx h = Ok (n', c', h') ->
  match es with
  | [] => n' = TupleExpression [] (Some (SetType (Fresh h) (Some NoneType)))
  | _ :: _ =>
      exists es' l ms,
        n' = TupleExpression es' (Some (TupleType l ms))
        /\ length es' = length es
        /\ distinct_objects ms = true
        /\ (forall e, In e es' -> existsb (same_object (type_of e)) ms = true)
        /\ (forall e, In e es' -> by_value (type_of e) = true -> In (type_of e) ms)
        /\ (forall m, In m ms -> exists e, In e es' /\ type_of e = m)
  end.
Proof.
  intros Hc. rewrite analyze_eq in Hc. unfold rules in Hc.
  destruct es as [|x r]; [injection Hc as <- _ _; reflexivity|].
  repeat step.
  match goal with
  | Hr : each_member _ _ _ _ _ = Ok _ |- _ =>
      apply each_member_spec in Hr; destruct Hr as (Hlen & Hd & _ & Hall & Hfrom)
  end.
  do 3 eexists. split; [reflexivity|].
  split; [assumption|]. split; [apply Hd; reflexivity|]. split; [assumption|].
  split.
  - intros e He Hval. specialize (Hall e He).
    apply existsb_exists in Hall. destruct Hall as (m & Hm & Hsame).
    apply same_object_by_value in Hsame; [subst m|]; assumption.
  - intros m Hm. destruct (Hfrom m Hm) as [[]|He]. assumption.
Qed.

(** The tuple [(1, 2, trueShit)] gets the members Integer and Boolean. *)
Lemma tuple_type_members_witness :
  exists es' l ms,
    TupleExpression
      [NumericLiteral 1 (Some IntType); NumericLiteral 2 (Some IntType);
       BooleanLiteral true (Some BooleanType)]
      (Some (TupleType (Fresh 0) [Some IntType; Some BooleanType]))
    = TupleExpression es' (Some (TupleType l ms))
    /\ length es' = 3
    /\ distinct_objects ms = true
    /\ (forall e, In e es' -> existsb (same_object (type_of e)) ms = true)
    /\ (forall e, In e es' -> by_value (type_of e) = true -> In (type_of e) ms)
    /\ (forall m, In m ms -> exists e, In e es' /\ type_of e = m).
Proof.
  exact (tuple_type_members a_host
           [NumericLiteral 1 None; NumericLiteral 2 None; BooleanLiteral true None]
           None root 0 _ root 1 eq_refl).
Defined.

(** C8: the tuple rule collects the member types in a JavaScript [Set],
    which tells objects apart by identity, and every array literal
    allocates a descriptor of its own.  For the tuple [([1], [2])] the two
    element types are equal descriptors but two objects, and the tuple
    type lists both: its member list holds two equal types, so the
    duplicate is not collapsed. *)
Lemma tuple_of_two_arrays_lists_both :
  let one := Some (ArrayType (Fresh 0) (Some IntType)) in
  let two := Some (ArrayType (Fresh 1) (Some IntType)) in
  analyzed (analyze a_host
              (TupleExpression [ArrayExpression [NumericLiteral 1 None] None;
                                ArrayExpression [NumericLiteral 2 None] None] None)
              root 0)
  = Some (TupleExpression [ArrayExpression [NumericLiteral 1 (Some IntType)] one;
                           ArrayExpression [NumericLiteral 2 (Some IntType)] two]
            (Some (TupleType (Fresh 2) [one; two])))
  /\ field_equal one two = true
  /\ distinct_types [one; two] = false.
Proof. repeat split. Qed.

(** ** Subscripts *)



(** ** The rules at work *)

(** [digitz x: 5 !!! x: 9 !!!] *)
Example declare_then_assign :
  analyzed (analyze a_host
    (Program
       [VariableDeclaration false (Some IntType)
          [IdentifierDeclaration (Some "x") None] [NumericLiteral 5 None];
        AssignmentStatement [IdentifierExpression (Some "x") None None]
          [NumericLiteral 9 None]]) root 0)
  = Some (Program
       [VariableDeclaration false (Some IntType)
          [IdentifierDeclaration (Some "x") (Some IntType)]
          [NumericLiteral 5 (Some IntType)];
        AssignmentStatement
          [IdentifierExpression (Some "x")
             (Some (VariableEntity false (Some IntType) (Some "x"))) (Some IntType)]
          [NumericLiteral 9 (Some IntType)]]).
Proof. vm_compute. reflexivity. Qed.

(** Declaring [x] twice in one scope, and assigning a string to it. *)
Example declare_twice :
  let declare_x e :=
    VariableDeclaration false (Some IntType) [IdentifierDeclaration (Some "x") None] [e] in
  analyze a_host (Program [declare_x (NumericLiteral 5 None); declare_x (NumericLiteral 9 None)])
    root 0 = Throw AlreadyDeclared
  /\ analyze a_host (Program [declare_x (StringLiteral "five" None)]) root 0
     = Throw (CheckError "isAssignableTo").
Proof. split; vm_compute; reflexivity. Qed.

(** A classic for loop over [digitz i: 0], tested with [i <= 10], with a
    break in its body. *)
Example classic_for_loop :
  analyzed (analyze a_host
    (ClassicForLoop (Some IntType) (Some "i") (NumericLiteral 0 None)
       (BinaryExpression "<=" (IdentifierExpression (Some "i") None None)
          (NumericLiteral 10 None) None)
       (Some "i") (Block [BreakStatement])) root 0)
  = Some (ClassicForLoop (Some IntType) (Some "i") (NumericLiteral 0 (Some IntType))
       (BinaryExpression "<="
          (IdentifierExpression (Some "i")
             (Some (IndexDeclaration (Some IntType) (Some "i"))) (Some IntType))
          (NumericLiteral 10 (Some IntType)) (Some BooleanType))
       (Some "i") (Block [BreakStatement])).
Proof. vm_compute. reflexivity. Qed.

(** The operators, through the cascade of tests. *)
Example operators :
  let typed op l r :=
    match analyze a_host (BinaryExpression op l r None) root 0 with
    | Ok (n, _, _) => inl (type_of n)
    | Throw e => inr e
    end in
  let one := NumericLiteral 1 None in
  let hi := StringLiteral "hi" None in
  let yes := BooleanLiteral true None in
  typed "+" one one = inl (Some IntType)
  /\ typed "+" hi hi = inl (Some StringType)
  /\ typed "+" hi one = inr ConcatError
  /\ typed "%" one one = inl (Some IntType)
  /\ typed "*" hi one = inr (CheckError "isInteger")
  /\ typed "&&" yes yes = inl (Some BooleanType)
  /\ typed "<=" one one = inl (Some BooleanType)
  /\ typed "<" yes yes = inr (CheckError "isIntegerOrString")
  /\ typed "!=" one one = inl (Some BooleanType)
  /\ typed "==" one hi = inr (CheckError "sameType").
Proof. repeat split. Qed.

(** An empty array literal holds the None type and does not fit an array
    of integers. *)
Example empty_array :
  analyzed (analyze a_host (ArrayExpression [] None) root 0)
  = Some (ArrayExpression [] (Some (ArrayType (Fresh 0) (Some NoneType))))
  /\ analyze a_host
       (VariableDeclaration false (Some (ArrayType (Parsed 0) (Some IntType)))
          [IdentifierDeclaration (Some "g") None] [ArrayExpression [] None]) root 0
     = Throw (CheckError "isAssignableTo").
Proof. split; vm_compute; reflexivity. Qed.

(** * Further properties *)

(** ** Scope tables: declare and look up *)

Lemma addVar_Ok (this : context) (id : key) (e : entity) (c : context) :
  addVar this id e = Ok c ->
  has id (variableDeclarations this) = false
  /\ c = Context (parent this) (currentFunction this) (inLoop this)
           (set id e (variableDeclarations this)) (classDeclarations this).
Proof.
  unfold addVar. destruct (has id (variableDeclarations this)); [discriminate|].
  intros [= <-]. split; reflexivity.
Qed.

Lemma addClass_Ok (this : context) (id : key) (e : entity) (c : context) :
  addClass this id e = Ok c ->
  has id (classDeclarations this) = false
  /\ c = Context (parent this) (currentFunction this) (inLoop this)
           (variableDeclarations this) (set id e (classDeclarations this)).
Proof.
  unfold addClass. destruct (has id (classDeclarations this)); [discriminate|].
  intros [= <-]. split; reflexivity.
Qed.

Lemma lookupVar_unfold (this : context) (id : key) :
  lookupVar this id
  = match get id (variableDeclarations this) with
    | Some e => Ok e
    | None => match parent this with
              | Some up => lookupVar up id
              | None => Throw (NotDeclared id)
              end
    end.
Proof. destruct this; reflexivity. Qed.

Lemma lookupClass_unfold (this : context) (id : key) :
  lookupClass this id
  = match get id (classDeclarations this) with
    | Some e => Ok e
    | None => match parent this with
              | Some up => lookupClass up id
              | None => Throw (NotDeclared id)
              end
    end.
Proof. destruct this; reflexivity. Qed.

(** X1: a variable declared with [addVar] is what [lookupVar] returns for
    its name from then on; the lookup of every other name, and every class
    lookup, gives what it gave before the declaration. *)
Theorem addVar_then_lookup (this : context) (id : key) (e : entity) (c : context) :
  addVar this id e = Ok c ->
  lookupVar c id = Ok e
  /\ (forall k, k <> id -> lookupVar c k = lookupVar this k)
  /\ (forall k, lookupClass c k = lookupClass this k).
Proof.
  intros Hadd. apply addVar_Ok in Hadd. destruct Hadd as [_ ->].
  split; [|split].
  - rewrite lookupVar_unfold. simpl. rewrite get_set, decide_True by reflexivity.
    reflexivity.
  - intros k Hk. rewrite (lookupVar_unfold this), lookupVar_unfold. simpl.
    rewrite get_set, decide_False by congruence. reflexivity.
  - intros k. rewrite (lookupClass_unfold this), lookupClass_unfold. reflexivity.
Qed.

Lemma addVar_then_lookup_witness :
  let x := Some "x" in
  let e := VariableEntity false (Some IntType) x in
  exists c, addVar root x e = Ok c /\ lookupVar c x = Ok e
            /\ lookupVar c (Some "y") = Throw (NotDeclared (Some "y")).
Proof.
  intros x e.
  destruct (addVar root x e) as [c|err] eqn:Hadd; [|vm_compute in Hadd; discriminate Hadd].
  exists c. destruct (addVar_then_lookup root x e c Hadd) as (Hsame & Hother & _).
  split; [reflexivity|]. split; [assumption|].
  rewrite Hother by discriminate. reflexivity.
Defined.

(** X2: a class declared with [addClass] is what [lookupClass] returns for
    its name from then on; the lookup of every other class name, and every
    variable lookup, gives what it gave before: the two tables of a scope
    do not see each other, so a class and a variable may share a name. *)
Theorem addClass_then_lookup (this : context) (id : key) (e : entity) (c : context) :
  addClass this id e = Ok c ->
  lookupClass c id = Ok e
  /\ (forall k, k <> id -> lookupClass c k = lookupClass this k)
  /\ (forall k, lookupVar c k = lookupVar this k)
  /\ (forall e', has id (variableDeclarations c) = has id (variableDeclarations this)
                 /\ (has id (variableDeclarations this) = false ->
                     succeeds (addVar c id e'))).
Proof.
  intros Hadd. apply addClass_Ok in Hadd. destruct Hadd as [_ ->].
  split; [|split; [|split]].
  - rewrite lookupClass_unfold. simpl. rewrite get_set, decide_True by reflexivity.
    reflexivity.
  - intros k Hk. rewrite (lookupClass_unfold this), lookupClass_unfold. simpl.
    rewrite get_set, decide_False by congruence. reflexivity.
  - intros k. rewrite (lookupVar_unfold this), lookupVar_unfold. reflexivity.
  - intros e'. split; [reflexivity|].
    intros Hfree. unfold addVar. simpl. rewrite Hfree. eexists; reflexivity.
Qed.

Lemma addClass_then_lookup_witness :
  let x := Some "x" in
  let cls := ClassEntity x [] in
  let var := VariableEntity false (Some IntType) x in
  exists c, addClass root x cls = Ok c /\ lookupClass c x = Ok cls
            /\ lookupVar c x = Throw (NotDeclared x)
            /\ succeeds (addVar c x var).
Proof.
  intros x cls var.
  destruct (addClass root x cls) as [c|err] eqn:Hadd;
    [|vm_compute in Hadd; discriminate Hadd].
  exists c.
  destruct (addClass_then_lookup root x cls c Hadd) as (Hsame & _ & Hvars & Hfree).
  split; [reflexivity|]. split; [assumption|].
  split; [rewrite Hvars; reflexivity|].
  apply (Hfree var). reflexivity.
Defined.

(** X3: a scope fresh from one of the three child constructors resolves
    every variable name and every class name exactly as its parent does,
    failing where the parent fails. *)
Theorem fresh_child_resolves_as_parent (this child : context) (id : key) :
  child_of this child ->
  lookupVar child id = lookupVar this id
  /\ lookupClass child id = lookupClass this id.
Proof.
  intros Hchild.
  destruct (child_tables_empty this child Hchild) as (Hv & Hc & Hp).
  rewrite (lookupVar_unfold child), (lookupClass_unfold child), Hv, Hc, Hp.
  split; reflexivity.
Qed.

Lemma fresh_child_resolves_as_parent_witness :
  lookupVar (createChildContextForLoop scope_with_a) (Some "a")
  = lookupVar scope_with_a (Some "a")
  /\ lookupClass (createChildContextForLoop scope_with_a) (Some "a")
     = lookupClass scope_with_a (Some "a").
Proof.
  apply (fresh_child_resolves_as_parent scope_with_a). right; left; reflexivity.
Defined.

(** Induction along the parent links. *)
Lemma context_chain_ind (P : context -> Prop) :
  (forall c, (forall up, parent c = Some up -> P up) -> P c) ->
  forall c, P c.
Proof.
  intros Hstep. fix IH 1. intros c. destruct c as [p f l vars classes].
  apply Hstep. simpl. intros up Hup.
  destruct p as [q|]; [|discriminate Hup].
  injection Hup as <-. apply IH.
Qed.

Lemma has_get (id : key) (m : jsmap) :
  has id m = match get id m with Some _ => true | None => false end.
Proof.
  destruct (get id m) eqn:Hg; [apply has_true; eauto|apply has_false; assumption].
Qed.

Lemma lookupVar_declared (this : context) (id : key) :
  match lookupVar this id with
  | Ok _ => declared_var this id = true
  | Throw err => declared_var this id = false /\ err = NotDeclared id
  end.
Proof.
  induction this as [c IH] using context_chain_ind.
  rewrite lookupVar_unfold.
  destruct c as [p f l vars classes]; simpl in *. rewrite has_get.
  destruct (get id vars); [reflexivity|]. simpl.
  destruct p as [up|]; [apply IH; reflexivity|split; reflexivity].
Qed.

Lemma lookupClass_declared (this : context) (id : key) :
  match lookupClass this id with
  | Ok _ => declared_class this id = true
  | Throw err => declared_class this id = false /\ err = NotDeclared id
  end.
Proof.
  induction this as [c IH] using context_chain_ind.
  rewrite lookupClass_unfold.
  destruct c as [p f l vars classes]; simpl in *. rewrite has_get.
  destruct (get id classes); [reflexivity|]. simpl.
  destruct p as [up|]; [apply IH; reflexivity|split; reflexivity].
Qed.

(** X4: a lookup succeeds exactly when some scope of the chain, from the
    starting one outwards, holds the name, and then the entry of the
    starting scope, if it has one, is the one returned; the only error a
    lookup raises is "has not been declared", and it names the identifier
    asked for. *)
Theorem lookup_succeeds_iff_declared (this : context) (id : key) :
  (succeeds (lookupVar this id) <-> declared_var this id = true)
  /\ (succeeds (lookupClass this id) <-> declared_class this id = true)
  /\ (forall e, get id (variableDeclarations this) = Some e -> lookupVar this id = Ok e)
  /\ (forall e, get id (classDeclarations this) = Some e -> lookupClass this id = Ok e)
  /\ (forall err, lookupVar this id = Throw err -> err = NotDeclared id)
  /\ (forall err, lookupClass this id = Throw err -> err = NotDeclared id).
Proof.
  pose proof (lookupVar_declared this id) as Hv.
  pose proof (lookupClass_declared this id) as Hc.
  split; [|split; [|split; [|split; [|split]]]].
  - destruct (lookupVar this id) as [e|err].
    + split; [intros _; assumption|intros _; eexists; reflexivity].
    + destruct Hv as [Hv _]. split; [intros [e He]; discriminate He|congruence].
  - destruct (lookupClass this id) as [e|err].
    + split; [intros _; assumption|intros _; eexists; reflexivity].
    + destruct Hc as [Hc _]. split; [intros [e He]; discriminate He|congruence].
  - apply lookupVar_own.
  - apply lookupClass_own.
  - intros err Herr. rewrite Herr in Hv. apply Hv.
  - intros err Herr. rewrite Herr in Hc. apply Hc.
Qed.

(** ** What analysis does to the context it is given *)

Section Preserved.

Variable H : host.
Variable R : context -> context -> Prop.
Hypothesis R_refl : forall c, R c c.
Hypothesis R_trans : forall a b c, R a b -> R b c -> R a c.
Hypothesis R_addVar : forall c id e c', addVar c id e = Ok c' -> R c c'.
Hypothesis R_addClass : forall c id e c', addClass c id e = Ok c' -> R c c'.
Hypothesis R_entity :
  forall e c h c' h', entity_analyze H e c h = Ok (c', h') -> R c c'.

(** Turns the steps of a successful run into links of [R] and follows
    them from the context the run started in. *)
Ltac links :=
  repeat match goal with
  | Hk : preserves R ?v ?x, Hs : ?v ?x _ _ = Ok _ |- _ => apply Hk in Hs
  | Hk : preserves R ?v ?x /\ _ |- _ => destruct Hk
  end;
  repeat match goal with
  | |- R ?a ?a => apply R_refl
  | Hr : R ?a ?b |- R ?a ?c => apply (R_trans a b c Hr); clear Hr
  end.

Lemma each_preserves visit l :
  Forall (preserves R visit) l ->
  forall c h l' c' h', each visit l c h = Ok (l', c', h') -> R c c'.
Proof.
  induction 1 as [|m r Hm Hr IH]; intros c h l' c' h' Hc; simpl in Hc; repeat step.
  - links.
  - match goal with Hr : each _ _ _ _ = Ok _ |- _ => apply IH in Hr end. links.
Qed.

Lemma each_test_preserves visit l :
  Forall (preserves R visit) l ->
  forall c h l' c' h', each_test visit l c h = Ok (l', c', h') -> R c c'.
Proof.
  induction 1 as [|m r Hm Hr IH]; intros c h l' c' h' Hc; simpl in Hc; repeat step.
  - links.
  - match goal with Hr : each_test _ _ _ _ = Ok _ |- _ => apply IH in Hr end. links.
Qed.

Lemma each_member_preserves visit l :
  Forall (preserves R visit) l ->
  forall acc c h l' acc' c' h',
    each_member visit l acc c h = Ok (l', acc', c', h') -> R c c'.
Proof.
  induction 1 as [|m r Hm Hr IH]; intros acc c h l' acc' c' h' Hc; simpl in Hc;
    repeat step.
  - links.
  - match goal with Hr : each_member _ _ _ _ _ = Ok _ |- _ => apply IH in Hr end. links.
Qed.

Lemma each_case_preserves visit l :
  Forall (case_preserves R visit) l ->
  forall c h l' c' h', each_case visit l c h = Ok (l', c', h') -> R c c'.
Proof.
  induction 1 as [|k r Hk Hr IH]; intros c h l' c' h' Hc; simpl in Hc.
  - repeat step. links.
  - step. destruct a as [[k' c1] h1]. repeat step.
    match goal with Hr : each_case _ _ _ _ = Ok _ |- _ => apply IH in Hr end.
    apply (R_trans c c1 c'); [|assumption].
    clear IH Hr.
    destruct k; try discriminate; simpl in Hk;
      try (match goal with o : option node |- _ => destruct o; try discriminate end);
      repeat step; links.
Qed.

Lemma assign_preserves visit target source :
  Forall (preserves R visit) target -> Forall (preserves R visit) source ->
  forall c h t' s' c' h',
    assign visit target source c h = Ok (t', s', c', h') -> R c c'.
Proof.
  intros Ht Hs c h t' s' c' h' Hc. unfold assign in Hc. repeat step.
  repeat match goal with
         | Hr : each _ _ _ _ = Ok _ |- _ => apply each_preserves in Hr; [|assumption]
         end.
  links.
Qed.

Lemma addVars_preserves k t ids :
  forall c c', addVars k t ids c = Ok c' -> R c c'.
Proof.
  induction ids as [|id r IH]; intros c c' Hc; simpl in Hc; repeat step.
  - apply R_refl.
  - apply IH in Hc. apply R_addVar in Hs. links.
Qed.

(** A relation that the writes to a scope respect is respected by the
    whole analysis. *)
Lemma analyze_preserves : forall n, preserves R (analyze H) n.
Proof.
  fix IH 1. intros n.
  destruct n; intros c h n' c' h' Hc; rewrite analyze_eq in Hc; unfold rules in Hc.
  all: repeat match goal with
       | l : list node |- _ =>
           lazymatch goal with
           | _ : Forall (preserves R _) l |- _ => fail
           | _ => assert (Forall (preserves R (analyze H)) l)
                    by (clear - IH; induction l; constructor; [apply IH|assumption])
           end
       end.
  all: try match goal with
       | l : list node, Hyp : context [each_case _ ?l] |- _ =>
           assert (Forall (case_preserves R (analyze H)) l)
             by (clear - IH; induction l as [|k l IHl]; constructor;
                 [destruct k; simpl; try split; try exact I; apply IH|assumption])
       end.
  all: repeat first
       [ step
       | match goal with
         | Hyp : match ?x with _ => _ end = Ok _ |- _ => is_var x; destruct x
         end ].
  all: repeat match goal with
       | Hs : analyze _ ?x _ _ = Ok _ |- _ => apply (IH x) in Hs
       | Hs : each _ _ _ _ = Ok _ |- _ => apply each_preserves in Hs; [|assumption]
       | Hs : each_test _ _ _ _ = Ok _ |- _ => apply each_test_preserves in Hs; [|assumption]
       | Hs : each_case _ _ _ _ = Ok _ |- _ => apply each_case_preserves in Hs; [|assumption]
       | Hs : each_member _ _ _ _ _ = Ok _ |- _ =>
           apply each_member_preserves in Hs; [|assumption]
       | Hs : assign _ _ _ _ _ = Ok _ |- _ =>
           apply assign_preserves in Hs; [|assumption|assumption]
       | Hs : addVar _ _ _ = Ok _ |- _ => apply R_addVar in Hs
       | Hs : addClass _ _ _ = Ok _ |- _ => apply R_addClass in Hs
       | Hs : addVars _ _ _ _ = Ok _ |- _ => apply addVars_preserves in Hs
       | Hs : entity_analyze _ _ _ _ = Ok _ |- _ => apply R_entity in Hs
       end.
  all: links.
Qed.

End Preserved.

(** X5: analysis never changes the parent link, the current function or
    the loop flag of the context it is called with: whatever happens below
    a node, the statements after it are judged with the same function and
    the same loop flag as the statements before it. *)
Theorem analysis_keeps_function_and_loop
    (H : host) (n : node) (ctx : context) (h : nat)
    (n' : node) (c' : context) (h' : nat) :
  analyze H n ctx h = Ok (n', c', h') ->
  parent c' = parent ctx
  /\ currentFunction c' = currentFunction ctx
  /\ inLoop c' = inLoop ctx.
Proof.
  intros Hc. apply analyze_frame in Hc. injection Hc as Hp Hf Hl. auto.
Qed.

Lemma analysis_keeps_function_and_loop_witness :
  let loop := createChildContextForLoop root in
  exists n' c' h',
    analyze a_host
      (Block [FunctionDeclaration false leftOnRead (Some "f") [] (Block []);
              BreakStatement]) loop 0 = Ok (n', c', h')
    /\ parent c' = parent loop
    /\ currentFunction c' = currentFunction loop
    /\ inLoop c' = inLoop loop.
Proof.
  intros loop.
  destruct (analyze a_host
              (Block [FunctionDeclaration false leftOnRead (Some "f") [] (Block []);
                      BreakStatement]) loop 0) as [[[n' c'] h']|err] eqn:Hrun;
    [|vm_compute in Hrun; discriminate Hrun].
  exists n', c', h'. split; [reflexivity|].
  exact (analysis_keeps_function_and_loop a_host _ loop 0 n' c' h' Hrun).
Defined.

Lemma extends_refl (c : context) : extends c c.
Proof. split; auto. Qed.

Lemma extends_trans (a b c : context) : extends a b -> extends b c -> extends a c.
Proof. intros [Hv Hc] [Hv' Hc']. split; auto. Qed.

Lemma addVar_extends (c : context) (id : key) (e : entity) (c' : context) :
  addVar c id e = Ok c' -> extends c c'.
Proof.
  intros Hadd. apply addVar_Ok in Hadd. destruct Hadd as [Hfree ->].
  apply has_false in Hfree. split; simpl; [|auto].
  intros k v Hk. rewrite get_set. case_decide; [congruence|assumption].
Qed.

Lemma addClass_extends (c : context) (id : key) (e : entity) (c' : context) :
  addClass c id e = Ok c' -> extends c c'.
Proof.
  intros Hadd. apply addClass_Ok in Hadd. destruct Hadd as [Hfree ->].
  apply has_false in Hfree. split; simpl; [auto|].
  intros k v Hk. rewrite get_set. case_decide; [congruence|assumption].
Qed.

Lemma entity_analyze_extends (H : host) :
  extends_only H ->
  forall e c h c' h', entity_analyze H e c h = Ok (c', h') -> extends c c'.
Proof.
  intros Hhost e c h c' h' Hc. unfold entity_analyze in Hc.
  destruct e; try discriminate Hc; repeat step;
    match goal with
    | Hr : reanalyze _ _ _ _ = Ok _ |- _ => apply Hhost in Hr; exact Hr
    end.
Qed.

Lemma analyze_extends (H : host) :
  extends_only H -> forall n, preserves extends (analyze H) n.
Proof.
  intros Hhost. apply analyze_preserves.
  - apply extends_refl.
  - apply extends_trans.
  - apply addVar_extends.
  - apply addClass_extends.
  - apply entity_analyze_extends. assumption.
Qed.

Lemma extends_lookupVar (c c' : context) (k : key) (v : entity) :
  extends c c' -> get k (variableDeclarations c) = Some v -> lookupVar c' k = Ok v.
Proof. intros [Hv _] Hk. apply lookupVar_own. auto. Qed.

Lemma a_host_extends_only : extends_only a_host.
Proof. intros e c h vars classes h' Hr. discriminate Hr. Qed.

Lemma parameter_host_extends_only : extends_only parameter_host.
Proof.
  intros e c h vars classes h' Hr. simpl in Hr.
  destruct e; try discriminate Hr. repeat step.
  match goal with
  | Ha : addVar _ _ _ = Ok _ |- _ => apply addVar_extends in Ha; exact Ha
  end.
Qed.

(** X6: analysis only ever adds to the two tables of the context it is
    called with.  An entry that is there before a node is analyzed is
    there afterwards, bound to the same declaration: nothing is removed
    and nothing is rebound. *)
Theorem analysis_never_unbinds
    (H : host) (n : node) (ctx : context) (h : nat)
    (n' : node) (c' : context) (h' : nat) :
  extends_only H ->
  analyze H n ctx h = Ok (n', c', h') ->
  (forall k v, get k (variableDeclarations ctx) = Some v ->
               get k (variableDeclarations c') = Some v /\ lookupVar c' k = Ok v)
  /\ (forall k v, get k (classDeclarations ctx) = Some v ->
                  get k (classDeclarations c') = Some v /\ lookupClass c' k = Ok v).
Proof.
  intros Hhost Hc. apply (analyze_extends H Hhost) in Hc. destruct Hc as [Hv Hcl].
  split; intros k v Hk.
  - split; [auto|apply lookupVar_own; auto].
  - split; [auto|apply lookupClass_own; auto].
Qed.

Lemma analysis_never_unbinds_witness :
  exists n' c' h',
    analyze parameter_host
      (Program [VariableDeclaration false (Some IntType)
                  [IdentifierDeclaration (Some "y") None] [NumericLiteral 5 None];
                MemberExpression (Some "a") (Some "n") None]) block_with_x 0
    = Ok (n', c', h')
    /\ lookupVar c' (Some "x") = Ok (VariableEntity false (Some IntType) (Some "x"))
    /\ has (Some "a") (variableDeclarations block_with_x) = false
    /\ has (Some "a") (variableDeclarations c') = true.
Proof.
  destruct (analyze parameter_host
      (Program [VariableDeclaration false (Some IntType)
                  [IdentifierDeclaration (Some "y") None] [NumericLiteral 5 None];
                MemberExpression (Some "a") (Some "n") None]) block_with_x 0)
    as [[[n' c'] h']|err] eqn:Hrun; [|vm_compute in Hrun; discriminate Hrun].
  exists n', c', h'. split; [reflexivity|].
  split.
  - apply (analysis_never_unbinds parameter_host _ block_with_x 0 n' c' h'
             parameter_host_extends_only Hrun).
    vm_compute. reflexivity.
  - vm_compute in Hrun. injection Hrun as _ <- _. split; vm_compute; reflexivity.
Defined.

Lemma untouched_refl (c : context) : untouched c c.
Proof. reflexivity. Qed.

Lemma untouched_trans (a b c : context) : untouched a b -> untouched b c -> untouched a c.
Proof. unfold untouched. congruence. Qed.

Lemma scope_neutral_untouched (H : host) :
  forall n, scope_neutral n = true -> preserves untouched (analyze H) n.
Proof.
  fix IH 1. intros n Hn.
  destruct n; simpl in Hn; try discriminate Hn;
    intros c h n' c' h' Hc; rewrite analyze_eq in Hc; unfold rules in Hc.
  all: repeat match goal with
       | Hb : _ && _ = true |- _ => apply andb_prop in Hb; destruct Hb
       end.
  all: repeat match goal with
       | Hl : forallb scope_neutral ?l = true |- _ =>
           assert (Forall (preserves untouched (analyze H)) l)
             by (clear - IH Hl; induction l as [|x l IHl]; constructor;
                 simpl in Hl; apply andb_prop in Hl; destruct Hl;
                 [apply IH; assumption|apply IHl; assumption]);
           clear Hl
       | Hl : forallb _ ?l = true |- _ =>
           assert (Forall (case_preserves untouched (analyze H)) l)
             by (clear - IH Hl; induction l as [|k l IHl]; constructor;
                 simpl in Hl; apply andb_prop in Hl; destruct Hl as [Hk Hl];
                 [destruct k; try discriminate Hk; simpl;
                  apply andb_prop in Hk; destruct Hk; split; apply IH; assumption
                 |apply IHl; assumption]);
           clear Hl
       end.
  all: repeat first
       [ step
       | match goal with
         | Hyp : match ?x with _ => _ end = Ok _ |- _ => is_var x; destruct x
         end ].
  all: repeat match goal with
       | Hx : scope_neutral ?x = true, Hs : analyze _ ?x _ _ = Ok _ |- _ =>
           apply (IH x Hx) in Hs
       | Hs : each _ _ _ _ = Ok _ |- _ =>
           eapply (each_preserves untouched untouched_refl untouched_trans) in Hs;
           [|eassumption]
       | Hs : each_test _ _ _ _ = Ok _ |- _ =>
           eapply (each_test_preserves untouched untouched_refl untouched_trans) in Hs;
           [|eassumption]
       | Hs : each_case _ _ _ _ = Ok _ |- _ =>
           eapply (each_case_preserves untouched untouched_refl untouched_trans) in Hs;
           [|eassumption]
       | Hs : each_member _ _ _ _ _ = Ok _ |- _ =>
           eapply (each_member_preserves untouched untouched_refl untouched_trans) in Hs;
           [|eassumption]
       | Hs : assign _ _ _ _ _ = Ok _ |- _ =>
           eapply (assign_preserves untouched untouched_refl untouched_trans) in Hs;
           [|eassumption|eassumption]
       end.
  all: unfold untouched in *; congruence.
Qed.

(** X7: only declarations write to a scope.  A node that has no variable,
    function, class or parameter declaration and no member access or
    subscript among the parts analyzed in its own context hands the
    context back exactly as it got it; the bodies of while and for loops
    and the branches of an if statement may declare what they like, none
    of it reaches the enclosing scope. *)
Theorem only_declarations_write_to_scope
    (H : host) (n : node) (ctx : context) (h : nat)
    (n' : node) (c' : context) (h' : nat) :
  scope_neutral n = true ->
  analyze H n ctx h = Ok (n', c', h') ->
  c' = ctx.
Proof. intros Hn Hc. exact (scope_neutral_untouched H n Hn ctx h n' c' h' Hc). Qed.

Lemma only_declarations_write_to_scope_witness :
  let declare_x :=
    VariableDeclaration false (Some IntType)
      [IdentifierDeclaration (Some "x") None] [NumericLiteral 1 None] in
  let program :=
    Program [WhileStatement (BooleanLiteral true None) (Block [declare_x]);
             IfStatement [BooleanLiteral true None] [Block [declare_x]]
               (Some (Block [declare_x]))] in
  exists n' h', analyze a_host program root 0 = Ok (n', root, h').
Proof.
  intros declare_x program.
  destruct (analyze a_host program root 0) as [[[n' c'] h']|err] eqn:Hrun;
    [|vm_compute in Hrun; discriminate Hrun].
  exists n', h'.
  rewrite (only_declarations_write_to_scope a_host program root 0 n' c' h' eq_refl Hrun).
  reflexivity.
Defined.

(** ** Lists of statements *)

Lemma each_length visit l :
  forall c h l' c' h', each visit l c h = Ok (l', c', h') -> length l' = length l.
Proof.
  induction l as [|m r IH]; intros c h l' c' h' Hc; simpl in Hc; repeat step.
  - reflexivity.
  - simpl. f_equal. eapply IH. eassumption.
Qed.

Lemma each_app visit (l1 l2 : list node) (c : context) (h : nat) :
  each visit (l1 ++ l2)%list c h
  = '(l1', c1, h1) ← each visit l1 c h;
    '(l2', c2, h2) ← each visit l2 c1 h1;
    Ok ((l1' ++ l2')%list, c2, h2).
Proof.
  revert c h. induction l1 as [|m r IH]; intros c h.
  - simpl. destruct (each visit l2 c h) as [[[l2' c2] h2]|err]; reflexivity.
  - change (each visit ((m :: r) ++ l2) c h)
      with ('(m', c', h') ← visit m c h;
            '(r', c', h') ← each visit (r ++ l2) c' h';
            Ok (m' :: r', c', h')).
    change (each visit (m :: r) c h)
      with ('(m', c', h') ← visit m c h;
            '(r', c', h') ← each visit r c' h';
            Ok (m' :: r', c', h')).
    destruct (visit m c h) as [[[m' c'] h']|err]; [|reflexivity]. simpl.
    rewrite IH.
    destruct (each visit r c' h') as [[[r' c1] h1]|err]; [|reflexivity]. simpl.
    destruct (each visit l2 c1 h1) as [[[l2' c2] h2]|err]; reflexivity.
Qed.

(** X8: a statement list is analyzed front to back in one context, each
    statement starting where the one before it stopped, and the pass ends
    at the first statement that fails: the error of a program or block is
    the error of that statement, and what comes after it plays no part. *)
Theorem first_failure_is_reported
    (H : host) (pre post : list node) (m : node) (ctx : context) (h : nat)
    (pre' : list node) (c1 : context) (h1 : nat) (err : error) :
  each (analyze H) pre ctx h = Ok (pre', c1, h1) ->
  analyze H m c1 h1 = Throw err ->
  analyze H (Program (pre ++ m :: post)) ctx h = Throw err
  /\ analyze H (Block (pre ++ m :: post)) ctx h = Throw err
  /\ analyze H (Program pre) ctx h = Ok (Program pre', c1, h1).
Proof.
  intros Hpre Hm.
  rewrite !analyze_Program, analyze_Block, each_app, Hpre. simpl.
  rewrite Hm. repeat split.
Qed.

Lemma first_failure_is_reported_witness :
  let declare_x :=
    VariableDeclaration false (Some IntType)
      [IdentifierDeclaration (Some "x") None] [NumericLiteral 1 None] in
  analyze a_host
    (Program ([declare_x] ++ BreakStatement :: [IdentifierExpression (Some "y") None None]))
    root 0 = Throw (CheckError "inLoop").
Proof.
  intros declare_x.
  destruct (each (analyze a_host) [declare_x] root 0) as [[[pre' c1] h1]|e] eqn:Hpre;
    [|vm_compute in Hpre; discriminate Hpre].
  refine (proj1 (first_failure_is_reported a_host [declare_x] _ BreakStatement root 0
                   pre' c1 h1 (CheckError "inLoop") Hpre _)).
  rewrite analyze_eq. unfold rules, check.inLoop.
  apply each_preserves with (R := fun c c' => inLoop c' = inLoop c) in Hpre.
  - rewrite Hpre. reflexivity.
  - reflexivity.
  - congruence.
  - apply List.Forall_forall. intros n _ c h n' c' h' Hn.
    apply analyze_frame in Hn. injection Hn as _ _ Hl. assumption.
Defined.

(** ** Declarations *)

Lemma addVars_Ok (k : bool) (t : tyfield) (ids : list node) :
  forall c c',
    addVars k t ids c = Ok c' ->
    (forall id, In id ids ->
       has (id_of id) (variableDeclarations c) = false
       /\ get (id_of id) (variableDeclarations c')
          = Some (VariableEntity k t (id_of id)))
    /\ NoDup (map id_of ids)
    /\ extends c c'.
Proof.
  induction ids as [|id r IH]; intros c c' Hc; simpl in Hc; repeat step.
  - split; [intros id []|]. split; [constructor|apply extends_refl].
  - destruct (IH _ _ Hc) as (Hr & Hnodup & Hext).
    pose proof (addVar_extends _ _ _ _ Hs) as Hext1.
    apply addVar_Ok in Hs. destruct Hs as [Hfree ->].
    assert (get (id_of id)
              (variableDeclarations
                 (Context (parent c) (currentFunction c) (inLoop c)
                    (set (id_of id) (VariableEntity k t (id_of id))
                       (variableDeclarations c)) (classDeclarations c)))
            = Some (VariableEntity k t (id_of id))) as Hhead.
    { simpl. rewrite get_set, decide_True by reflexivity. reflexivity. }
    split; [|split].
    + intros id' [<-|Hin].
      * split; [assumption|]. apply (proj1 Hext). assumption.
      * destruct (Hr id' Hin) as [Hfree' Hget]. split; [|assumption].
        apply has_false. apply has_false in Hfree'. simpl in Hfree'.
        rewrite get_set in Hfree'. case_decide; [discriminate|assumption].
    + constructor; [|assumption].
      intros Hin. apply list_elem_of_In, in_map_iff in Hin.
      destruct Hin as (id' & Heq & Hin).
      destruct (Hr id' Hin) as [Hfree' _]. apply has_false in Hfree'.
      rewrite Heq, Hhead in Hfree'. discriminate.
    + eapply extends_trans; eassumption.
Qed.

Lemma assign_extends (H : host) target source c h t' s' c' h' :
  extends_only H ->
  assign (analyze H) target source c h = Ok (t', s', c', h') -> extends c c'.
Proof.
  intros Hhost. apply (assign_preserves extends extends_refl extends_trans);
    apply List.Forall_forall; intros n _; apply analyze_extends; assumption.
Qed.

Lemma each_extends (H : host) l c h l' c' h' :
  extends_only H ->
  each (analyze H) l c h = Ok (l', c', h') -> extends c c'.
Proof.
  intros Hhost. apply (each_preserves extends extends_refl extends_trans).
  apply List.Forall_forall; intros n _; apply analyze_extends; assumption.
Qed.

Lemma extends_has_false (c c' : context) (k : key) :
  extends c c' -> has k (variableDeclarations c') = false ->
  has k (variableDeclarations c) = false.
Proof.
  intros [Hv _] Hfree. apply has_false. apply has_false in Hfree.
  destruct (get k (variableDeclarations c)) as [v|] eqn:Hk; [|reflexivity].
  apply Hv in Hk. congruence.
Qed.

(** X9: an accepted variable declaration leaves every one of its names
    resolving, in the context it was analyzed in, to a variable with the
    declared constant flag and type; none of the names was in that scope's
    own table before, no two of them are the same, and there are as many
    initializers as names. *)
Theorem declared_variables_resolve
    (H : host) (k : bool) (t : tyfield) (ids exps : list node)
    (ctx : context) (h : nat) (n' : node) (c' : context) (h' : nat) :
  extends_only H ->
  analyze H (VariableDeclaration k t ids exps) ctx h = Ok (n', c', h') ->
  (forall id, In id ids ->
     has (id_of id) (variableDeclarations ctx) = false
     /\ lookupVar c' (id_of id) = Ok (VariableEntity k t (id_of id)))
  /\ NoDup (map id_of ids)
  /\ length exps = length ids.
Proof.
  intros Hhost Hc. rewrite analyze_eq in Hc. unfold rules in Hc. repeat step.
  match goal with
  | Ha : addVars _ _ _ _ = Ok _ |- _ =>
      apply addVars_Ok in Ha; destruct Ha as (Hids & Hnodup & _)
  end.
  match goal with
  | Ha : assign _ _ _ _ _ = Ok _ |- _ =>
      apply assign_extends in Ha; [|assumption]; rename Ha into Hext
  end.
  split; [|split; [assumption|]].
  - intros id Hin. destruct (Hids id Hin) as [Hfree Hget].
    split; [assumption|]. eapply extends_lookupVar; eassumption.
  - match goal with
    | Hn : check.sameNumberOfInitializersAsVariables _ _ = Ok _ |- _ =>
        apply doCheck_Ok in Hn; apply Nat.eqb_eq in Hn; exact Hn
    end.
Qed.

Lemma declared_variables_resolve_witness :
  exists n' c' h',
    analyze a_host
      (VariableDeclaration true (Some StringType)
         [IdentifierDeclaration (Some "x") None; IdentifierDeclaration (Some "y") None]
         [StringLiteral "a" None; StringLiteral "b" None]) scope_with_a 0
    = Ok (n', c', h')
    /\ lookupVar c' (Some "y") = Ok (VariableEntity true (Some StringType) (Some "y")).
Proof.
  destruct (analyze a_host
      (VariableDeclaration true (Some StringType)
         [IdentifierDeclaration (Some "x") None; IdentifierDeclaration (Some "y") None]
         [StringLiteral "a" None; StringLiteral "b" None]) scope_with_a 0)
    as [[[n' c'] h']|err] eqn:Hrun; [|vm_compute in Hrun; discriminate Hrun].
  exists n', c', h'. split; [reflexivity|].
  destruct (declared_variables_resolve a_host _ _ _ _ scope_with_a 0 n' c' h'
              a_host_extends_only Hrun) as (Hids & _).
  apply (Hids (IdentifierDeclaration (Some "y") None)). right; left; reflexivity.
Defined.

(** X10: an accepted function declaration binds its name, in the scope it
    was declared in, to the function with the void marker rewritten to the
    None type; the name was not in that scope's own table before; every
    other variable entry and the whole class table of that scope are as
    they were, so neither the parameters nor anything declared in the body
    reaches it. *)
Theorem function_declaration_binds_its_name
    (H : host) (a : bool) (t : tyfield) (i : key) (params : list node) (b : node)
    (ctx : context) (h : nat) (n' : node) (c' : context) (h' : nat) :
  analyze H (FunctionDeclaration a t i params b) ctx h = Ok (n', c', h') ->
  let t' := if same_object t leftOnRead then Some NoneType else t in
  exists params' b',
    n' = FunctionDeclaration a t' i params' b'
    /\ length params' = length params
    /\ has i (variableDeclarations ctx) = false
    /\ lookupVar c' i = Ok (FunctionEntity a t' i (map param_info params'))
    /\ (forall k, k <> i ->
          get k (variableDeclarations c') = get k (variableDeclarations ctx))
    /\ classDeclarations c' = classDeclarations ctx.
Proof.
  intros Hc t'. rewrite analyze_eq in Hc. unfold rules in Hc. repeat step.
  match goal with
  | Hp : each _ _ _ _ = Ok _ |- _ => apply each_length in Hp; rename Hp into Hlen
  end.
  match goal with
  | Ha : addVar _ _ _ = Ok _ |- _ => apply addVar_Ok in Ha; destruct Ha as [Hfree ->]
  end.
  do 2 eexists. split; [reflexivity|]. split; [assumption|]. split; [assumption|].
  split; [|split; [|reflexivity]].
  { apply lookupVar_own. simpl. rewrite get_set. apply decide_True. reflexivity. }
  intros k Hk. simpl. rewrite get_set. apply decide_False. congruence.
Qed.

Lemma function_declaration_binds_its_name_witness :
  exists n' c' h',
    analyze a_host
      (FunctionDeclaration false leftOnRead (Some "f")
         [ParameterNode (Some IntType) (Some "n") None]
         (Block [VariableDeclaration false (Some IntType)
                   [IdentifierDeclaration (Some "x") None]
                   [IdentifierExpression (Some "n") None None]])) root 0
    = Ok (n', c', h')
    /\ lookupVar c' (Some "f")
       = Ok (FunctionEntity false (Some NoneType) (Some "f")
               [(Some IntType, Some "n")])
    /\ lookupVar c' (Some "n") = Throw (NotDeclared (Some "n"))
    /\ lookupVar c' (Some "x") = Throw (NotDeclared (Some "x")).
Proof.
  destruct (analyze a_host
      (FunctionDeclaration false leftOnRead (Some "f")
         [ParameterNode (Some IntType) (Some "n") None]
         (Block [VariableDeclaration false (Some IntType)
                   [IdentifierDeclaration (Some "x") None]
                   [IdentifierExpression (Some "n") None None]])) root 0)
    as [[[n' c'] h']|err] eqn:Hrun; [|vm_compute in Hrun; discriminate Hrun].
  exists n', c', h'. split; [reflexivity|].
  pose proof (function_declaration_binds_its_name a_host _ _ _ _ _ root 0 n' c' h' Hrun)
    as (params' & b' & Hn & _ & _ & Hlook & Hother & _).
  assert (params' = [ParameterNode (Some IntType) (Some "n") None]) as ->.
  { vm_compute in Hrun. injection Hrun as Hn' _ _. rewrite <- Hn' in Hn.
    injection Hn as <- _. reflexivity. }
  split; [exact Hlook|].
  split; rewrite lookupVar_unfold, Hother by discriminate;
    (replace (parent c') with (@None context)
       by (apply analyze_frame in Hrun; injection Hrun as -> _ _; reflexivity));
    reflexivity.
Defined.

(** What a declaring node needs of the scope and what it leaves in it. *)
Lemma declares_Ok (H : host) (n : node) (x : key) ctx h n' c' h' :
  extends_only H ->
  declares n x ->
  analyze H n ctx h = Ok (n', c', h') ->
  has x (variableDeclarations ctx) = false
  /\ has x (variableDeclarations c') = true.
Proof.
  intros Hhost Hx Hc.
  destruct n; simpl in Hx; try contradiction.
  - (* FunctionDeclaration *)
    subst x. rewrite analyze_eq in Hc. unfold rules in Hc. repeat step.
    match goal with
    | Ha : addVar _ _ _ = Ok _ |- _ => apply addVar_Ok in Ha; destruct Ha as [Hfree ->]
    end.
    split; [assumption|].
    simpl. rewrite has_set. apply decide_True. reflexivity.
  - (* ParameterNode *)
    subst x. rewrite analyze_eq in Hc. unfold rules in Hc.
    step. destruct a as [[e' c1] h1]. repeat step.
    assert (extends ctx c1) as Hext.
    { destruct expression as [e|]; repeat step; [|apply extends_refl].
      match goal with
      | He : analyze _ _ _ _ = Ok _ |- _ => apply (analyze_extends H Hhost) in He; exact He
      end. }
    match goal with
    | Ha : addVar _ _ _ = Ok _ |- _ => apply addVar_Ok in Ha; destruct Ha as [Hfree ->]
    end.
    split; [eapply extends_has_false; eassumption|].
    simpl. rewrite has_set. apply decide_True. reflexivity.
  - (* VariableDeclaration *)
    apply in_map_iff in Hx. destruct Hx as (id & <- & Hin).
    rewrite analyze_eq in Hc. unfold rules in Hc. repeat step.
    match goal with
    | Ha : addVars _ _ _ _ = Ok _ |- _ =>
        apply addVars_Ok in Ha; destruct Ha as (Hids' & _ & _)
    end.
    match goal with
    | Ha : assign _ _ _ _ _ = Ok _ |- _ => apply assign_extends in Ha; [|assumption]
    end.
    destruct (Hids' id Hin) as [Hfree Hget]. split; [assumption|].
    apply has_true.
    match goal with Hext : extends _ c' |- _ => apply (proj1 Hext) in Hget end.
    eauto.
Qed.

Lemma each_redeclaration_fails (H : host) (pre mid post : list node) (d1 d2 : node)
    (x : key) :
  extends_only H -> declares d1 x -> declares d2 x ->
  forall c h, fails (each (analyze H) (pre ++ d1 :: mid ++ d2 :: post) c h).
Proof.
  intros Hhost H1 H2 c h. apply not_succeeds_fails. intros [[l' c'] h'] Hc.
  rewrite each_app in Hc. repeat step.
  match goal with
  | Hr : each _ (d1 :: _) _ _ = Ok _ |- _ => rewrite each_cons in Hr; repeat step
  end.
  match goal with
  | Hr : each _ (mid ++ _) _ _ = Ok _ |- _ => rewrite each_app in Hr; repeat step
  end.
  match goal with
  | Hr : each _ (d2 :: _) _ _ = Ok _ |- _ => rewrite each_cons in Hr; repeat step
  end.
  repeat match goal with
  | Hd : analyze _ d1 _ _ = Ok _ |- _ =>
      apply (declares_Ok H d1 x) in Hd; [destruct Hd as [_ Hafter]|assumption|assumption]
  | Hd : analyze _ d2 _ _ = Ok _ |- _ =>
      apply (declares_Ok H d2 x) in Hd; [destruct Hd as [Hbefore _]|assumption|assumption]
  | Hm : each _ mid _ _ = Ok _ |- _ => apply each_extends in Hm; [|assumption]
  end.
  apply has_true in Hafter. destruct Hafter as [v Hv].
  match goal with Hext : extends _ _ |- _ => apply (proj1 Hext) in Hv end.
  apply has_false in Hbefore. congruence.
Qed.

(** X11: a name is declared once per scope.  A statement list in which
    two declarations (of a variable, a function or a parameter, in any
    mix) bind the same name is rejected, whatever stands before, between
    and after them; so is a function whose parameter list does. *)
Theorem redeclaration_in_one_scope_fails
    (H : host) (pre mid post : list node) (d1 d2 : node) (x : key)
    (ctx : context) (h : nat) :
  extends_only H -> declares d1 x -> declares d2 x ->
  let l := (pre ++ d1 :: mid ++ d2 :: post)%list in
  fails (analyze H (Program l) ctx h)
  /\ fails (analyze H (Block l) ctx h)
  /\ (forall a t f b, fails (analyze H (FunctionDeclaration a t f l b) ctx h)).
Proof.
  intros Hhost H1 H2 l. subst l.
  pose proof (each_redeclaration_fails H pre mid post d1 d2 x Hhost H1 H2) as Heach.
  split; [|split].
  - rewrite analyze_Program. destruct (Heach ctx h) as [e ->]. eexists; reflexivity.
  - rewrite analyze_Block. destruct (Heach ctx h) as [e ->]. eexists; reflexivity.
  - intros a t f b. rewrite analyze_eq. unfold rules.
    match goal with
    | |- fails (each _ _ ?c ?h' ≫= _) => destruct (Heach c h') as [e He]
    end.
    rewrite He. eexists; reflexivity.
Qed.

Lemma redeclaration_in_one_scope_fails_witness :
  let declare_x :=
    VariableDeclaration false (Some IntType)
      [IdentifierDeclaration (Some "x") None] [NumericLiteral 1 None] in
  let function_x := FunctionDeclaration false leftOnRead (Some "x") [] (Block []) in
  fails (analyze a_host
           (Program ([] ++ declare_x :: [PrintStatement (NumericLiteral 2 None)]
                        ++ function_x :: [])) root 0)
  /\ fails (analyze a_host
              (FunctionDeclaration false leftOnRead (Some "f")
                 ([] ++ ParameterNode (Some IntType) (Some "n") None
                     :: [] ++ ParameterNode (Some StringType) (Some "n") None :: [])
                 (Block [])) root 0).
Proof.
  intros declare_x function_x. split.
  - exact (proj1 (redeclaration_in_one_scope_fails a_host []
                    [PrintStatement (NumericLiteral 2 None)] [] declare_x function_x
                    (Some "x") root 0 a_host_extends_only
                    (or_introl eq_refl) eq_refl)).
  - exact (proj2 (proj2 (redeclaration_in_one_scope_fails a_host [] [] []
                    (ParameterNode (Some IntType) (Some "n") None)
                    (ParameterNode (Some StringType) (Some "n") None)
                    (Some "n") root 0 a_host_extends_only eq_refl eq_refl))
                 false leftOnRead (Some "f") (Block [])).
Defined.

Lemma each_declares (H : host) (pre post : list node) (d : node) (x : key)
    c h l' c' h' :
  extends_only H -> declares d x ->
  each (analyze H) (pre ++ d :: post) c h = Ok (l', c', h') ->
  has x (variableDeclarations c') = true.
Proof.
  intros Hhost Hx Hc. rewrite each_app in Hc. repeat step.
  match goal with
  | Hr : each _ (d :: _) _ _ = Ok _ |- _ => rewrite each_cons in Hr; repeat step
  end.
  match goal with
  | Hd : analyze _ d _ _ = Ok _ |- _ =>
      apply (declares_Ok H d x) in Hd; [destruct Hd as [_ Hafter]|assumption|assumption]
  end.
  match goal with
  | Hm : each _ post _ _ = Ok _ |- _ => apply each_extends in Hm; [|assumption]
  end.
  apply has_true in Hafter. destruct Hafter as [v Hv].
  match goal with Hext : extends _ _ |- _ => apply (proj1 Hext) in Hv end.
  apply has_true. eauto.
Qed.

Lemma each_declares_fresh (H : host) (pre post : list node) (d : node) (x : key)
    c h l' c' h' :
  extends_only H -> declares d x ->
  each (analyze H) (pre ++ d :: post) c h = Ok (l', c', h') ->
  has x (variableDeclarations c) = false.
Proof.
  intros Hhost Hx Hc. rewrite each_app in Hc. repeat step.
  match goal with
  | Hr : each _ (d :: _) _ _ = Ok _ |- _ => rewrite each_cons in Hr; repeat step
  end.
  match goal with
  | Hd : analyze _ d _ _ = Ok _ |- _ =>
      apply (declares_Ok H d x) in Hd; [destruct Hd as [Hbefore _]|assumption|assumption]
  end.
  match goal with
  | Hm : each _ pre _ _ = Ok _ |- _ => apply each_extends in Hm; [|assumption]
  end.
  eapply extends_has_false; eassumption.
Qed.

(** X12: a block is not a scope.  The statements of a block, like those of
    a program, are analyzed in the context the block itself is analyzed
    in, so after an accepted block every name that one of its statements
    declares is bound in that context's own table and resolves there. *)
Theorem block_declarations_stay
    (H : host) (pre post : list node) (d : node) (x : key)
    (ctx : context) (h : nat) (n' : node) (c' : context) (h' : nat) :
  extends_only H -> declares d x ->
  analyze H (Block (pre ++ d :: post)) ctx h = Ok (n', c', h')
  \/ analyze H (Program (pre ++ d :: post)) ctx h = Ok (n', c', h') ->
  has x (variableDeclarations ctx) = false
  /\ has x (variableDeclarations c') = true
  /\ succeeds (lookupVar c' x).
Proof.
  intros Hhost Hx Hrun.
  assert (exists l', each (analyze H) (pre ++ d :: post) ctx h = Ok (l', c', h')) as [l' Hc].
  { destruct Hrun as [Hc|Hc];
      [rewrite analyze_Block in Hc|rewrite analyze_Program in Hc]; repeat step; eauto. }
  pose proof (each_declares H pre post d x _ _ _ _ _ Hhost Hx Hc) as Hafter.
  split; [|split; [assumption|]].
  - eapply each_declares_fresh; eassumption.
  - apply has_true in Hafter. destruct Hafter as [v Hv].
    exists v. apply lookupVar_own. assumption.
Qed.

Lemma block_declarations_stay_witness :
  let declare_x :=
    VariableDeclaration false (Some IntType)
      [IdentifierDeclaration (Some "x") None] [NumericLiteral 1 None] in
  exists n' c' h',
    analyze a_host (Block ([] ++ declare_x :: [])) root 0 = Ok (n', c', h')
    /\ succeeds (lookupVar c' (Some "x")).
Proof.
  intros declare_x.
  destruct (analyze a_host (Block ([] ++ declare_x :: [])) root 0)
    as [[[n' c'] h']|err] eqn:Hrun; [|vm_compute in Hrun; discriminate Hrun].
  exists n', c', h'. split; [reflexivity|].
  exact (proj2 (proj2 (block_declarations_stay a_host [] [] declare_x (Some "x")
                         root 0 n' c' h' a_host_extends_only
                         (or_introl eq_refl) (or_introl Hrun)))).
Defined.

(** X13: an accepted class declaration enters the class in the class
    table of the scope it stands in, under a name that scope did not hold,
    and analyzes its body in that very scope, not in the scope of the
    constructor parameters: what the body declares is bound in the
    enclosing scope afterwards. *)
Theorem class_body_declares_in_enclosing_scope
    (H : host) (i : key) (params : list node) (b : node)
    (ctx : context) (h : nat) (n' : node) (c' : context) (h' : nat) :
  extends_only H ->
  analyze H (ClassDeclaration i params b) ctx h = Ok (n', c', h') ->
  has i (classDeclarations ctx) = false
  /\ lookupClass c' i = Ok (ClassEntity i (map param_info params))
  /\ (forall pre d post x,
        b = Block (pre ++ d :: post) -> declares d x ->
        has x (variableDeclarations c') = true /\ succeeds (lookupVar c' x)).
Proof.
  intros Hhost Hc. rewrite analyze_eq in Hc. unfold rules in Hc. repeat step.
  match goal with
  | Hb : analyze _ b ?c1 _ = Ok _, Ha : addClass _ _ _ = Ok ?c1 |- _ =>
      pose proof (analyze_extends H Hhost _ _ _ _ _ _ Hb) as Hext;
      rename Hb into Hbody;
      apply addClass_Ok in Ha; destruct Ha as [Hfree Hc1]
  end.
  split; [assumption|split].
  - apply lookupClass_own. apply (proj2 Hext). rewrite Hc1. simpl.
    rewrite get_set. apply decide_True. reflexivity.
  - intros pre d post x -> Hx.
    rewrite analyze_Block in Hbody. repeat step.
    match goal with
    | Hr : each _ _ _ _ = Ok _ |- _ =>
        pose proof (each_declares H pre post d x _ _ _ _ _ Hhost Hx Hr) as Hafter
    end.
    split; [assumption|].
    apply has_true in Hafter. destruct Hafter as [v Hv].
    exists v. apply lookupVar_own. assumption.
Qed.

Lemma class_body_declares_in_enclosing_scope_witness :
  let declare_x :=
    VariableDeclaration false (Some StringType)
      [IdentifierDeclaration (Some "worstQuality") None] [StringLiteral "q" None] in
  exists n' c' h',
    analyze a_host
      (ClassDeclaration (Some "fakeFriends")
         [ParameterNode (Some IntType) (Some "n") None]
         (Block ([] ++ declare_x :: []))) root 0 = Ok (n', c', h')
    /\ lookupClass c' (Some "fakeFriends")
       = Ok (ClassEntity (Some "fakeFriends") [(Some IntType, Some "n")])
    /\ succeeds (lookupVar c' (Some "worstQuality")).
Proof.
  intros declare_x.
  destruct (analyze a_host
      (ClassDeclaration (Some "fakeFriends")
         [ParameterNode (Some IntType) (Some "n") None]
         (Block ([] ++ declare_x :: []))) root 0)
    as [[[n' c'] h']|err] eqn:Hrun; [|vm_compute in Hrun; discriminate Hrun].
  exists n', c', h'. split; [reflexivity|].
  destruct (class_body_declares_in_enclosing_scope a_host _ _ _ root 0 n' c' h'
              a_host_extends_only Hrun) as (_ & Hclass & Hbody).
  split; [exact Hclass|].
  exact (proj2 (Hbody [] declare_x [] (Some "worstQuality") eq_refl (or_introl eq_refl))).
Defined.

(** ** Assignments *)

(** X14: an assignment with more targets than sources, or fewer, is never
    accepted, and neither is a variable declaration with more names than
    initializers, or fewer; when the two sides of the assignment analyze
    without error, the error is the one about the number of ids. *)
Theorem arity_mismatch_fails
    (H : host) (target source : list node) (ctx : context) (h : nat) :
  length target <> length source ->
  fails (analyze H (AssignmentStatement target source) ctx h)
  /\ (forall k t, fails (analyze H (VariableDeclaration k t target source) ctx h))
  /\ (forall s' c1 h1 t' c2 h2,
        each (analyze H) source ctx h = Ok (s', c1, h1) ->
        each (analyze H) target c1 h1 = Ok (t', c2, h2) ->
        analyze H (AssignmentStatement target source) ctx h = Throw ArityError).
Proof.
  intros Hlen.
  assert (forall c h0, fails (assign (analyze H) target source c h0)) as Hassign.
  { intros c h0. apply not_succeeds_fails. intros [[[t' s'] c'] h'] Hc.
    unfold assign in Hc. repeat step.
    repeat match goal with
           | Hr : each _ _ _ _ = Ok _ |- _ => apply each_length in Hr
           end.
    match goal with
    | Hb : negb (Nat.eqb _ _) = false |- _ =>
        apply negb_false_iff, Nat.eqb_eq in Hb; congruence
    end. }
  split; [|split].
  - rewrite analyze_eq. unfold rules.
    destruct (Hassign ctx h) as [e ->]. eexists; reflexivity.
  - intros k t. apply not_succeeds_fails. intros [[n' c'] h'] Hc.
    rewrite analyze_eq in Hc. unfold rules in Hc. repeat step.
    match goal with
    | Ha : assign _ _ _ ?c ?h0 = Ok _ |- _ =>
        destruct (Hassign c h0) as [e He]; rewrite He in Ha; discriminate Ha
    end.
  - intros s' c1 h1 t' c2 h2 Hs Ht.
    rewrite analyze_eq. unfold rules, assign. rewrite Hs. simpl. rewrite Ht. simpl.
    apply each_length in Hs, Ht.
    destruct (Nat.eqb (length t') (length s')) eqn:Heq; [|reflexivity].
    apply Nat.eqb_eq in Heq. congruence.
Qed.

Lemma arity_mismatch_fails_witness :
  analyze a_host
    (AssignmentStatement
       [IdentifierExpression (Some "a") None None]
       [NumericLiteral 1 None; NumericLiteral 2 None]) scope_with_a 0
  = Throw ArityError.
Proof.
  refine (proj2 (proj2 (arity_mismatch_fails a_host
                          [IdentifierExpression (Some "a") None None]
                          [NumericLiteral 1 None; NumericLiteral 2 None]
                          scope_with_a 0 _)) _ _ _ _ _ _ eq_refl _).
  - discriminate.
  - vm_compute. reflexivity.
Defined.

Lemma type_equal_refl : forall t : type, type_equal t t = true.
Proof.
  fix IH 1. intros t.
  destruct t as [| | | | |l m|l m|l k v|l ms|l n|s]; simpl; try reflexivity.
  - destruct m; [apply IH|reflexivity].
  - destruct m; [apply IH|reflexivity].
  - destruct k, v; simpl; rewrite ?IH; reflexivity.
  - induction ms as [|m ms IHms]; [reflexivity|].
    rewrite IHms. destruct m; [rewrite IH|]; reflexivity.
  - apply String.eqb_refl.
  - apply String.eqb_refl.
Qed.

Lemma field_equal_refl (t : tyfield) : field_equal t t = true.
Proof. destruct t; [apply type_equal_refl|reflexivity]. Qed.

(** X15: a variable is bound before its initializers are analyzed, so an
    initializer may mention the variable being declared: declaring [x]
    with [x] itself as initializer is accepted in every scope that does
    not hold [x] yet, whatever the declared type, and the initializer
    resolves to the new variable. *)
Theorem variable_visible_in_its_initializer
    (H : host) (k : bool) (t : tyfield) (x : key)
    (ty ty' : tyfield) (r : option entity) (ctx : context) (h : nat) :
  has x (variableDeclarations ctx) = false ->
  exists c',
    addVar ctx x (VariableEntity k t x) = Ok c'
    /\ analyze H (VariableDeclaration k t [IdentifierDeclaration x ty]
                    [IdentifierExpression x r ty']) ctx h
       = Ok (VariableDeclaration k t [IdentifierDeclaration x t]
               [IdentifierExpression x (Some (VariableEntity k t x)) t], c', h).
Proof.
  intros Hfree.
  destruct (addVar_fresh ctx x (VariableEntity k t x) Hfree) as (c' & Hadd & Hlook & _).
  exists c'. split; [assumption|].
  rewrite analyze_eq. unfold rules. simpl. rewrite Hadd. simpl.
  unfold assign. simpl. rewrite Hlook. simpl. rewrite Hlook. simpl.
  unfold check.isAssignableTo. rewrite field_equal_refl. reflexivity.
Qed.

Lemma variable_visible_in_its_initializer_witness :
  exists c',
    analyze a_host
      (VariableDeclaration true (Some IntType) [IdentifierDeclaration (Some "x") None]
         [IdentifierExpression (Some "x") None None]) scope_with_a 0
    = Ok (VariableDeclaration true (Some IntType)
            [IdentifierDeclaration (Some "x") (Some IntType)]
            [IdentifierExpression (Some "x")
               (Some (VariableEntity true (Some IntType) (Some "x"))) (Some IntType)],
          c', 0).
Proof.
  destruct (variable_visible_in_its_initializer a_host true (Some IntType) (Some "x")
              None None None scope_with_a 0 eq_refl) as (c' & _ & Hrun).
  exists c'. exact Hrun.
Defined.

(** ** Operators and literals *)

(** X16: an operator of the [+] class (one that reaches the fourth test of
    the cascade) on two analyzed operands gives Integer when both
    operands are Integer, String when both are String, and fails in every
    other case with the concatenation error, never with the error of the
    check that refused an operand. *)
Theorem plus_is_integer_or_string_or_fails
    (H : host) (op : string) (l r : node) (t : tyfield) (ctx : context) (h : nat)
    (l' : node) (c1 : context) (h1 : nat) (r' : node) (c2 : context) (h2 : nat) :
  classify op = Plus ->
  analyze H l ctx h = Ok (l', c1, h1) ->
  analyze H r c1 h1 = Ok (r', c2, h2) ->
  analyze H (BinaryExpression op l r t) ctx h
  = match type_of l', type_of r' with
    | Some IntType, Some IntType =>
        Ok (BinaryExpression op l' r' (Some IntType), c2, h2)
    | Some StringType, Some StringType =>
        Ok (BinaryExpression op l' r' (Some StringType), c2, h2)
    | _, _ => Throw ConcatError
    end.
Proof.
  intros Hop Hl Hr. rewrite analyze_eq. unfold rules. rewrite Hl. simpl.
  rewrite Hr. simpl. rewrite Hop.
  unfold check.isInteger, check.isString.
  destruct (type_of l') as [[]|], (type_of r') as [[]|]; reflexivity.
Qed.

Lemma plus_is_integer_or_string_or_fails_witness :
  analyze a_host
    (BinaryExpression "+" (StringLiteral "my name is " None) (NumericLiteral 1 None) None)
    root 0 = Throw ConcatError
  /\ analyze a_host
       (BinaryExpression "+" (StringLiteral "hello" None) (StringLiteral "World" None) None)
       root 0
     = Ok (BinaryExpression "+" (StringLiteral "hello" (Some StringType))
             (StringLiteral "World" (Some StringType)) (Some StringType), root, 0).
Proof.
  split.
  - exact (plus_is_integer_or_string_or_fails a_host "+"
             (StringLiteral "my name is " None) (NumericLiteral 1 None) None root 0
             (StringLiteral "my name is " (Some StringType)) root 0
             (NumericLiteral 1 (Some IntType)) root 0 eq_refl eq_refl eq_refl).
  - exact (plus_is_integer_or_string_or_fails a_host "+"
             (StringLiteral "hello" None) (StringLiteral "World" None) None root 0
             (StringLiteral "hello" (Some StringType)) root 0
             (StringLiteral "World" (Some StringType)) root 0 eq_refl eq_refl eq_refl).
Defined.

(** X17: a unary [-] or [+] on an analyzed operand gives Integer for an
    Integer operand, Long for a Long operand, and fails for every other
    operand with "Not an IntType"; [BANGENERGY] gives Boolean for a Boolean
    operand and fails for every other. *)
Theorem unary_operator_types
    (H : host) (op : string) (e : node) (t : tyfield) (ctx : context) (h : nat)
    (e' : node) (c1 : context) (h1 : nat) :
  analyze H e ctx h = Ok (e', c1, h1) ->
  (op = "-" \/ op = "+" ->
     analyze H (UnaryExpression op e t) ctx h
     = match type_of e' with
       | Some IntType => Ok (UnaryExpression op e' (Some IntType), c1, h1)
       | Some LongType => Ok (UnaryExpression op e' (Some LongType), c1, h1)
       | _ => Throw NotAnIntType
       end)
  /\ (op = "BANGENERGY" ->
      analyze H (UnaryExpression op e t) ctx h
      = match type_of e' with
        | Some BooleanType => Ok (UnaryExpression op e' (Some BooleanType), c1, h1)
        | _ => Throw (CheckError "isBoolean")
        end).
Proof.
  intros He. split; intros Hop; rewrite analyze_eq; unfold rules; rewrite He; simpl.
  - unfold check.isInteger, check.isLong.
    destruct Hop as [-> | ->]; simpl;
      destruct (type_of e') as [[]|]; reflexivity.
  - subst op. simpl. unfold check.isBoolean.
    destruct (type_of e') as [[]|]; reflexivity.
Qed.

Lemma unary_operator_types_witness :
  analyze a_host (UnaryExpression "-" (BooleanLiteral true None) None) root 0
  = Throw NotAnIntType
  /\ analyze a_host (UnaryExpression "BANGENERGY" (BooleanLiteral true None) None) root 0
     = Ok (UnaryExpression "BANGENERGY" (BooleanLiteral true (Some BooleanType))
             (Some BooleanType), root, 0).
Proof.
  split.
  - exact (proj1 (unary_operator_types a_host "-" (BooleanLiteral true None) None
                    root 0 (BooleanLiteral true (Some BooleanType)) root 0 eq_refl)
             (or_introl eq_refl)).
  - exact (proj2 (unary_operator_types a_host "BANGENERGY" (BooleanLiteral true None)
                    None root 0 (BooleanLiteral true (Some BooleanType)) root 0 eq_refl)
             eq_refl).
Defined.

Lemma for_each_Forall {A} (f : A -> result unit) (l : list A) (u : unit) :
  for_each f l = Ok u -> Forall (fun x => f x = Ok tt) l.
Proof.
  induction l as [|x l IH]; simpl; intros Hc; [constructor|].
  repeat step. constructor; [|apply IH; destruct u; assumption].
  match goal with Hs : f x = Ok ?a |- _ => destruct a; assumption end.
Qed.

(** X18: an accepted array literal is typed as an array of the type of
    its first element, and every later element has passed the
    assignability check against that type; an empty array literal is an
    array of the None type.  Set literals follow the same rule with the
    Set descriptor.  The literal keeps all its elements, in order. *)
Theorem collection_literal_typed_by_first_element
    (H : host) (es : list node) (t : tyfield) (ctx : context) (h : nat)
    (n' : node) (c' : context) (h' : nat) :
  analyze H (ArrayExpression es t) ctx h = Ok (n', c', h')
  \/ analyze H (SetExpression es t) ctx h = Ok (n', c', h') ->
  exists es' l member,
    (n' = ArrayExpression es' (Some (ArrayType l member))
     \/ n' = SetExpression es' (Some (SetType l member)))
    /\ each (analyze H) es ctx h = Ok (es', c', Nat.pred h')
    /\ length es' = length es
    /\ member = match es' with [] => Some NoneType | first :: _ => type_of first end
    /\ Forall (fun e => check.isAssignableTo (type_of e) member = Ok tt) (tail es').
Proof.
  intros [Hc|Hc]; rewrite analyze_eq in Hc; unfold rules in Hc; step;
    destruct a as [[es' c1] h1]; pose proof (each_length _ _ _ _ _ _ _ Hs) as Hlen;
    destruct es' as [|first rest]; repeat step;
    do 3 eexists; (split; [eauto|]); simpl;
    (split; [eassumption|]); (split; [assumption|]); (split; [reflexivity|]);
    try constructor; eapply for_each_Forall; eassumption.
Qed.

Lemma collection_literal_typed_by_first_element_witness :
  exists es' l member,
    (ArrayExpression [NumericLiteral 1 (Some IntType); NumericLiteral 2 (Some IntType)]
       (Some (ArrayType (Fresh 0) (Some IntType)))
     = ArrayExpression es' (Some (ArrayType l member))
     \/ ArrayExpression [NumericLiteral 1 (Some IntType); NumericLiteral 2 (Some IntType)]
          (Some (ArrayType (Fresh 0) (Some IntType)))
        = SetExpression es' (Some (SetType l member)))
    /\ each (analyze a_host) [NumericLiteral 1 None; NumericLiteral 2 None] root 0
       = Ok (es', root, Nat.pred 1)
    /\ length es' = 2
    /\ member = match es' with [] => Some NoneType | first :: _ => type_of first end
    /\ Forall (fun e => check.isAssignableTo (type_of e) member = Ok tt) (tail es').
Proof.
  exact (collection_literal_typed_by_first_element a_host
           [NumericLiteral 1 None; NumericLiteral 2 None] None root 0
           (ArrayExpression [NumericLiteral 1 (Some IntType); NumericLiteral 2 (Some IntType)]
              (Some (ArrayType (Fresh 0) (Some IntType)))) root 1
           (or_introl eq_refl)).
Defined.

(** ** Switch: cases and scope *)

Lemma each_case_cons visit (k : node) (r : list node) (c : context) (h : nat) :
  each_case visit (k :: r) c h
  = '(k', c, h) ← one_case visit k c h;
    '(r', c, h) ← each_case visit r c h;
    Ok (k' :: r', c, h).
Proof. reflexivity. Qed.

Lemma each_case_app visit (l1 l2 : list node) (c : context) (h : nat) :
  each_case visit (l1 ++ l2)%list c h
  = '(l1', c1, h1) ← each_case visit l1 c h;
    '(l2', c2, h2) ← each_case visit l2 c1 h1;
    Ok ((l1' ++ l2')%list, c2, h2).
Proof.
  revert c h. induction l1 as [|k r IH]; intros c h.
  - simpl app. change (each_case visit [] c h) with (Ok (@nil node, c, h)). simpl.
    destruct (each_case visit l2 c h) as [[[l2' c2] h2]|err]; reflexivity.
  - simpl app. rewrite !each_case_cons.
    destruct (one_case visit k c h) as [[[k' c'] h']|err]; [|reflexivity]. simpl.
    rewrite IH.
    destruct (each_case visit r c' h') as [[[r' c1] h1]|err]; [|reflexivity]. simpl.
    destruct (each_case visit l2 c1 h1) as [[[l2' c2] h2]|err]; reflexivity.
Qed.

Lemma one_case_Case (H : host) (x b : node) (c : context) (h : nat) :
  one_case (analyze H) (Case x b) c h = analyze H (Case x b) c h.
Proof. rewrite analyze_eq. reflexivity. Qed.

Lemma each_case_extends (H : host) l c h l' c' h' :
  extends_only H ->
  each_case (analyze H) l c h = Ok (l', c', h') -> extends c c'.
Proof.
  intros Hhost. apply (each_case_preserves extends extends_refl extends_trans).
  apply List.Forall_forall. intros k _.
  destruct k; simpl; try exact I; split; apply analyze_extends; assumption.
Qed.

Lemma case_declares (H : host) (g : node) (p q : list node) (d : node) (x : key)
    c h n' c' h' :
  extends_only H -> declares d x ->
  analyze H (Case g (Block (p ++ d :: q))) c h = Ok (n', c', h') ->
  has x (variableDeclarations c) = false /\ has x (variableDeclarations c') = true.
Proof.
  intros Hhost Hx Hc. rewrite analyze_eq in Hc. unfold rules in Hc. repeat step.
  match goal with
  | Hg : analyze _ g _ _ = Ok _ |- _ => apply (analyze_extends H Hhost) in Hg
  end.
  match goal with
  | Hb : analyze _ (Block _) _ _ = Ok _ |- _ => rewrite analyze_Block in Hb; repeat step
  end.
  match goal with
  | Hb : each _ _ _ _ = Ok _ |- _ =>
      pose proof (each_declares_fresh H p q d x _ _ _ _ _ Hhost Hx Hb) as Hbefore;
      pose proof (each_declares H p q d x _ _ _ _ _ Hhost Hx Hb) as Hafter
  end.
  split; [eapply extends_has_false; eassumption|assumption].
Qed.

(** X19: a switch is not a scope and neither are its cases: the cases are
    analyzed one after the other in the context the switch stands in.  A
    switch in which the bodies of two cases declare the same name is
    rejected, whatever the scrutinee, the guards, the other cases and the
    default case are. *)
Theorem switch_cases_share_the_scope
    (H : host) (e : node) (pre mid post : list node) (alternate : option node)
    (g1 g2 d1 d2 : node) (p1 q1 p2 q2 : list node) (x : key)
    (ctx : context) (h : nat) :
  extends_only H -> declares d1 x -> declares d2 x ->
  fails (analyze H
           (SwitchStatement e
              (pre ++ Case g1 (Block (p1 ++ d1 :: q1))
                   :: mid ++ Case g2 (Block (p2 ++ d2 :: q2)) :: post)
              alternate) ctx h).
Proof.
  intros Hhost H1 H2. apply not_succeeds_fails. intros [[n' c'] h'] Hc.
  rewrite analyze_eq in Hc. unfold rules in Hc. repeat step.
  match goal with
  | Hr : each_case _ _ _ _ = Ok _ |- _ => rewrite each_case_app in Hr; repeat step
  end.
  match goal with
  | Hr : each_case _ (_ :: _) _ _ = Ok _ |- _ =>
      rewrite each_case_cons, one_case_Case in Hr; repeat step
  end.
  match goal with
  | Hr : each_case _ (mid ++ _) _ _ = Ok _ |- _ => rewrite each_case_app in Hr; repeat step
  end.
  match goal with
  | Hr : each_case _ (_ :: _) _ _ = Ok _ |- _ =>
      rewrite each_case_cons, one_case_Case in Hr; repeat step
  end.
  repeat match goal with
  | Hd : analyze _ (Case g1 _) _ _ = Ok _ |- _ =>
      apply (case_declares H g1 p1 q1 d1 x) in Hd;
      [destruct Hd as [_ Hafter]|assumption|assumption]
  | Hd : analyze _ (Case g2 _) _ _ = Ok _ |- _ =>
      apply (case_declares H g2 p2 q2 d2 x) in Hd;
      [destruct Hd as [Hbefore _]|assumption|assumption]
  | Hm : each_case _ mid _ _ = Ok _ |- _ => apply each_case_extends in Hm; [|assumption]
  end.
  apply has_true in Hafter. destruct Hafter as [v Hv].
  match goal with Hext : extends _ _ |- _ => apply (proj1 Hext) in Hv end.
  apply has_false in Hbefore. congruence.
Qed.

Lemma switch_cases_share_the_scope_witness :
  let declare_day :=
    VariableDeclaration false (Some StringType)
      [IdentifierDeclaration (Some "day") None] [StringLiteral "Sunday" None] in
  fails (analyze a_host
           (SwitchStatement (NumericLiteral 0 None)
              ([] ++ Case (BooleanLiteral true None) (Block ([] ++ declare_day :: []))
                  :: [] ++ Case (BooleanLiteral false None) (Block ([] ++ declare_day :: []))
                  :: [])
              None) root 0).
Proof.
  intros declare_day.
  exact (switch_cases_share_the_scope a_host (NumericLiteral 0 None) [] [] [] None
           (BooleanLiteral true None) (BooleanLiteral false None) declare_day declare_day
           [] [] [] [] (Some "day") root 0 a_host_extends_only
           (or_introl eq_refl) (or_introl eq_refl)).
Defined.

(** ** Names that are not declared, and the index of a for loop *)

Lemma lookupVar_undeclared (this : context) (id : key) :
  declared_var this id = false -> lookupVar this id = Throw (NotDeclared id).
Proof.
  intros Hno. pose proof (lookupVar_declared this id) as Hl.
  destruct (lookupVar this id) as [e|err]; [congruence|].
  destruct Hl as [_ ->]. reflexivity.
Qed.

Lemma lookupVar_child (this child : context) (id : key) :
  child_of this child -> lookupVar child id = lookupVar this id.
Proof.
  intros Hchild. destruct (child_tables_empty this child Hchild) as (Hv & _ & Hp).
  rewrite (lookupVar_unfold child), Hv, Hp. reflexivity.
Qed.

(** X20: the use of a name that no scope of the chain holds is rejected
    with "has not been declared", naming that identifier: as an identifier
    expression, as the callee of a call (before any argument is looked at,
    so whatever the arguments are), as the base of a subscript, and as the
    initializer of a for loop's index.  The last holds for the index's own
    name too: unlike the variable of a declaration, the index of a for
    loop is bound only after its initializer has been analyzed. *)
Theorem use_of_undeclared_name_fails
    (H : host) (i : key) (ctx : context) (h : nat) :
  declared_var ctx i = false ->
  (forall r t, analyze H (IdentifierExpression i r t) ctx h = Throw (NotDeclared i))
  /\ (forall args w r t, analyze H (Call i args w r t) ctx h = Throw (NotDeclared i))
  /\ (forall v s t, id_of v = i ->
        analyze H (SubscriptedExpression v s t) ctx h = Throw (NotDeclared i))
  /\ (forall t index r ty test updateid b,
        analyze H (ClassicForLoop t index (IdentifierExpression i r ty) test updateid b)
          ctx h
        = Throw (NotDeclared i)).
Proof.
  intros Hno. pose proof (lookupVar_undeclared ctx i Hno) as Hl.
  split; [|split; [|split]].
  - intros r t. rewrite analyze_eq. unfold rules. rewrite Hl. reflexivity.
  - intros args w r t. rewrite analyze_eq. unfold rules. rewrite Hl. reflexivity.
  - intros v s t <-. rewrite analyze_eq. unfold rules. rewrite Hl. reflexivity.
  - intros t index r ty test updateid b. rewrite analyze_eq. unfold rules.
    rewrite analyze_eq. unfold rules.
    rewrite (lookupVar_child ctx (createChildContextForLoop ctx) i), Hl
      by (right; left; reflexivity).
    reflexivity.
Qed.

Lemma use_of_undeclared_name_fails_witness :
  analyze a_host
    (ClassicForLoop (Some IntType) (Some "i")
       (IdentifierExpression (Some "i") None None)
       (BooleanLiteral true None) (Some "i") (Block [])) scope_with_a 0
  = Throw (NotDeclared (Some "i")).
Proof.
  exact (proj2 (proj2 (proj2
           (use_of_undeclared_name_fails a_host (Some "i") scope_with_a 0 eq_refl)))
           (Some IntType) (Some "i") None None (BooleanLiteral true None) (Some "i")
           (Block [])).
Defined.

(** X21: the index of a for loop and the statements of its body share one
    scope, the loop's own: a body that declares the index's name again is
    rejected, whatever the loop's initializer, test and update are. *)
Theorem loop_body_cannot_redeclare_index
    (H : host) (t : tyfield) (index : key) (init test : node) (updateid : key)
    (pre post : list node) (d : node) (ctx : context) (h : nat) :
  extends_only H -> declares d index ->
  fails (analyze H
           (ClassicForLoop t index init test updateid (Block (pre ++ d :: post)))
           ctx h).
Proof.
  intros Hhost Hd. apply not_succeeds_fails. intros [[n' c'] h'] Hc.
  rewrite analyze_eq in Hc. unfold rules in Hc. repeat step.
  match goal with
  | Ha : addVar _ _ _ = Ok ?c |- _ =>
      assert (has index (variableDeclarations c) = true) as Hafter
        by (apply addVar_Ok in Ha; destruct Ha as [_ ->]; simpl;
            rewrite has_set; apply decide_True; reflexivity)
  end.
  match goal with
  | Hb : analyze _ (Block _) _ _ = Ok _ |- _ => rewrite analyze_Block in Hb; repeat step
  end.
  match goal with
  | Hb : each _ (pre ++ _) _ _ = Ok _ |- _ =>
      pose proof (each_declares_fresh H pre post d index _ _ _ _ _ Hhost Hd Hb) as Hbefore
  end.
  match goal with
  | Ht : analyze _ test _ _ = Ok _ |- _ => apply (analyze_extends H Hhost) in Ht
  end.
  apply has_true in Hafter. destruct Hafter as [v Hv].
  match goal with Hext : extends _ _ |- _ => apply (proj1 Hext) in Hv end.
  apply has_false in Hbefore. congruence.
Qed.

Lemma loop_body_cannot_redeclare_index_witness :
  fails (analyze a_host
           (ClassicForLoop (Some IntType) (Some "i") (NumericLiteral 0 None)
              (BooleanLiteral true None) (Some "i")
              (Block ([] ++ VariableDeclaration false (Some IntType)
                               [IdentifierDeclaration (Some "i") None]
                               [NumericLiteral 1 None] :: [])))
           root 0).
Proof.
  exact (loop_body_cannot_redeclare_index a_host (Some IntType) (Some "i")
           (NumericLiteral 0 None) (BooleanLiteral true None) (Some "i") [] []
           (VariableDeclaration false (Some IntType)
              [IdentifierDeclaration (Some "i") None] [NumericLiteral 1 None])
           root 0 a_host_extends_only (or_introl eq_refl)).
Defined.
